(** * The agent side of the scheduler protocol: lib/libfossscheduler.c

    A shallow embedding of the scheduler API of the agents
    (fo_scheduler_connect, fo_scheduler_disconnect, fo_scheduler_next,
    fo_scheduler_current, fo_scheduler_heart and the SIGALRM handler
    fo_heartbeat) with explicit state passing.  The state holds the file's
    global variables together with the part of the process the functions act
    on: the unread bytes of stdin, the stdio buffer of stdout and what has
    been sent through it, and the pending alarm. *)

From Stdlib Require Import Ascii String DecimalString.
From Stdlib Require Import ZArith List Bool Lia Arith.
Import ListNotations.

Local Open Scope Z_scope.

(** ** Characters and C strings *)

(** A [char*] is modelled by the bytes of memory from the pointer onwards; the C
    string it denotes is the part before the first NUL.  Where the list ends
    the model reads a NUL. *)
Definition cmem := list ascii.

Definition NUL : ascii := "000"%char.
Definition LF : ascii := "010"%char.

Definition lit (s : string) : cmem := list_ascii_of_string s.

Definition code (c : ascii) : Z := Z.of_nat (nat_of_ascii c).

Fixpoint cstr (p : cmem) : list ascii :=
  match p with
  | [] => []
  | c :: r => if Ascii.eqb c NUL then [] else c :: cstr r
  end.

(** [strncmp]: at most [n] characters are compared, as unsigned chars, and
    the comparison stops after a NUL. *)
Fixpoint strncmp (s1 s2 : cmem) (n : nat) : Z :=
  match n with
  | O => 0
  | S n' =>
      let c1 := hd NUL s1 in
      let c2 := hd NUL s2 in
      if negb (Ascii.eqb c1 c2) then code c1 - code c2
      else if Ascii.eqb c1 NUL then 0
      else strncmp (tl s1) (tl s2) n'
  end.

Fixpoint strcmp_fuel (fuel : nat) (s1 s2 : cmem) : Z :=
  match fuel with
  | O => 0
  | S fuel' =>
      let c1 := hd NUL s1 in
      let c2 := hd NUL s2 in
      if negb (Ascii.eqb c1 c2) then code c1 - code c2
      else if Ascii.eqb c1 NUL then 0
      else strcmp_fuel fuel' (tl s1) (tl s2)
  end.

(** [strcmp] stops at the first NUL, which comes after at most
    [length s1] characters. *)
Definition strcmp (s1 s2 : cmem) : Z := strcmp_fuel (S (length s1)) s1 s2.

(** ** The type int *)

Definition INT_MIN : Z := - 2 ^ 31.
Definition INT_MAX : Z := 2 ^ 31 - 1.

(** Conversion to [int] by wrap-around.  C leaves signed overflow undefined;
    the model takes the two's complement result. *)
Definition to_int (z : Z) : Z := (z + 2 ^ 31) mod 2 ^ 32 - 2 ^ 31.

Definition in_int (z : Z) : Prop := INT_MIN <= z <= INT_MAX.

(** ** atoi, in the C locale *)

Definition isspace (c : ascii) : bool :=
  let n := code c in (n =? 32) || ((9 <=? n) && (n <=? 13)).

Definition isdigit (c : ascii) : bool :=
  let n := code c in (48 <=? n) && (n <=? 57).

Fixpoint skip_space (p : cmem) : cmem :=
  match p with
  | c :: r => if isspace c then skip_space r else p
  | [] => []
  end.

Fixpoint digits_value (acc : Z) (p : cmem) : Z :=
  match p with
  | c :: r => if isdigit c then digits_value (10 * acc + (code c - 48)) r else acc
  | [] => acc
  end.

Definition LONG_MIN : Z := - 2 ^ 63.
Definition LONG_MAX : Z := 2 ^ 63 - 1.

(** A value out of the range of [long] becomes the nearest bound, as
    [strtol] has it. *)
Definition saturate_long (z : Z) : Z := Z.max LONG_MIN (Z.min LONG_MAX z).

(** [strtol(p, NULL, 10)]: white space is skipped, one sign is accepted, and
    the longest run of digits is converted; no digits give 0. *)
Definition strtol (p : cmem) : Z :=
  match skip_space p with
  | c :: r =>
      if Ascii.eqb c "-" then saturate_long (- digits_value 0 r)
      else if Ascii.eqb c "+" then saturate_long (digits_value 0 r)
      else saturate_long (digits_value 0 (c :: r))
  | [] => 0
  end.

(** [atoi] as the C library has it: [(int) strtol(p, NULL, 10)], with a
    [long] of 64 bits. *)
Definition atoi (p : cmem) : Z := to_int (strtol p).

(** The text [atoi] is given starts with a number: after white space and an
    optional sign comes a digit. *)
Definition numeric (p : cmem) : bool :=
  match skip_space p with
  | c :: r =>
      if Ascii.eqb c "-" || Ascii.eqb c "+"
      then match r with d :: _ => isdigit d | [] => false end
      else isdigit c
  | [] => false
  end.

(** The conversion "%d" of printf. *)
Definition fmt_d (z : Z) : list ascii := lit (NilZero.string_of_int (Z.to_int z)).

(** ** The process state *)

(** What is installed for SIGALRM. *)
Inductive handler : Type :=
  | SIG_DFL
  | HEARTBEAT.

Record state : Type := mkState {
  items_processed : Z;          (* int items_processed *)
  buffer : cmem;                (* char buffer[2048] *)
  valid : Z;                    (* int valid *)
  found : Z;                    (* int found *)
  verbose : Z;                  (* int verbose *)
  stdin : list ascii;           (* the bytes of stdin not read yet; then end of file *)
  stdout_buf : list ascii;      (* written to stdout and not flushed yet *)
  stdout_sent : list ascii;     (* what the scheduler has received *)
  sigalrm : handler;
  alarm_in : option Z           (* seconds until SIGALRM, when an alarm is set *)
}.

Definition BUFSIZE : nat := 2048.

Definition set_items_processed (v : Z) (s : state) : state :=
  mkState v (buffer s) (valid s) (found s) (verbose s) (stdin s)
          (stdout_buf s) (stdout_sent s) (sigalrm s) (alarm_in s).

Definition set_buffer (v : cmem) (s : state) : state :=
  mkState (items_processed s) v (valid s) (found s) (verbose s) (stdin s)
          (stdout_buf s) (stdout_sent s) (sigalrm s) (alarm_in s).

Definition set_valid (v : Z) (s : state) : state :=
  mkState (items_processed s) (buffer s) v (found s) (verbose s) (stdin s)
          (stdout_buf s) (stdout_sent s) (sigalrm s) (alarm_in s).

Definition set_found (v : Z) (s : state) : state :=
  mkState (items_processed s) (buffer s) (valid s) v (verbose s) (stdin s)
          (stdout_buf s) (stdout_sent s) (sigalrm s) (alarm_in s).

Definition set_verbose (v : Z) (s : state) : state :=
  mkState (items_processed s) (buffer s) (valid s) (found s) v (stdin s)
          (stdout_buf s) (stdout_sent s) (sigalrm s) (alarm_in s).

Definition set_stdin (v : list ascii) (s : state) : state :=
  mkState (items_processed s) (buffer s) (valid s) (found s) (verbose s) v
          (stdout_buf s) (stdout_sent s) (sigalrm s) (alarm_in s).

(** The globals of a C program start out as zero. *)
Definition initial (input : list ascii) : state :=
  mkState 0 (repeat NUL BUFSIZE) 0 0 0 input [] [] SIG_DFL None.

(** ** stdio, signals and exit *)

Definition fprintf_stdout (text : list ascii) (s : state) : state :=
  mkState (items_processed s) (buffer s) (valid s) (found s) (verbose s) (stdin s)
          (stdout_buf s ++ text) (stdout_sent s) (sigalrm s) (alarm_in s).

Definition fflush_stdout (s : state) : state :=
  mkState (items_processed s) (buffer s) (valid s) (found s) (verbose s) (stdin s)
          [] (stdout_sent s ++ stdout_buf s) (sigalrm s) (alarm_in s).

(** Everything written to stdout so far, flushed or not. *)
Definition stdout_all (s : state) : list ascii := stdout_sent s ++ stdout_buf s.

(** The characters one call of [fgets] takes: at most [n], up to and
    including the first newline.  The second component is what stays unread. *)
Fixpoint read_chunk (n : nat) (input : list ascii) : list ascii * list ascii :=
  match n, input with
  | S n', c :: rest =>
      if Ascii.eqb c LF then ([c], rest)
      else let (l, r) := read_chunk n' rest in (c :: l, r)
  | _, _ => ([], input)
  end.

(** [fgets(buffer, size, stdin)]: [None] is the NULL of end of file, which
    leaves the buffer as it was; otherwise the characters read and a NUL
    overwrite the start of the buffer. *)
Definition fgets (size : nat) (s : state) : option state :=
  match stdin s with
  | [] => None
  | _ :: _ =>
      let (l, r) := read_chunk (size - 1) (stdin s) in
      Some (set_stdin r (set_buffer (l ++ NUL :: skipn (S (length l)) (buffer s)) s))
  end.

Definition signal_SIGALRM (h : handler) (s : state) : state :=
  mkState (items_processed s) (buffer s) (valid s) (found s) (verbose s) (stdin s)
          (stdout_buf s) (stdout_sent s) h (alarm_in s).

(** [alarm(0)] cancels the pending alarm. *)
Definition alarm (seconds : Z) (s : state) : state :=
  mkState (items_processed s) (buffer s) (valid s) (found s) (verbose s) (stdin s)
          (stdout_buf s) (stdout_sent s) (sigalrm s)
          (if seconds =? 0 then None else Some seconds).

(** A call either returns to its caller or ends the process. *)
Inductive outcome (A : Type) : Type :=
  | Returns (a : A) (s : state)
  | Exits (status : Z) (s : state).

Arguments Returns {A} a s.
Arguments Exits {A} status s.

(** [exit] flushes the open streams. *)
Definition exit {A : Type} (status : Z) (s : state) : outcome A :=
  Exits status (fflush_stdout s).

(** The two values the API returns as [char*]. *)
Inductive charp : Type :=
  | NULL
  | BUFFER.

(** The text the caller reads through a returned pointer. *)
Definition text_at (p : charp) (s : state) : option (list ascii) :=
  match p with
  | NULL => None
  | BUFFER => Some (cstr (buffer s))
  end.

Definition line (text : string) : list ascii := lit text ++ [LF].

(** ** The scheduler API *)

(** The build's fallback for the revision string. *)
Definition SVN_REV_fallback : cmem := lit "SVN_REV Unknown".

(** The result of one pass through the body of [fo_scheduler_next]: a
    [return], or the state at the recursive call. *)
Inductive pass : Type :=
  | Return (p : charp) (s : state)
  | Recurse (s : state).

(** The classes of inbound lines, by the prefix tests of [fo_scheduler_next]
    in their order. *)
Inductive line_class : Type :=
  | Close
  | End
  | Verbose
  | Version
  | Data.

Definition classify (l : cmem) : line_class :=
  if strncmp l (lit "CLOSE") 5 =? 0 then Close
  else if strncmp l (lit "END") 3 =? 0 then End
  else if strncmp l (lit "VERBOSE") 7 =? 0 then Verbose
  else if strncmp l (lit "VERSION") 7 =? 0 then Version
  else Data.

Definition is_control (l : cmem) : bool :=
  match classify l with
  | End | Verbose | Version => true
  | Close | Data => false
  end.

Section Agent.

(** [SVN_REV] comes from the build and [ALARM_SECS] from libfossscheduler.h. *)
Variable SVN_REV : cmem.
Variable ALARM_SECS : Z.

(** The SIGALRM handler. *)
Definition fo_heartbeat (s : state) : state :=
  let s := fprintf_stdout (lit "HEART: " ++ fmt_d (items_processed s) ++ [LF]) s in
  let s := fflush_stdout s in
  alarm ALARM_SECS s.

Definition fo_scheduler_heart (i : Z) (s : state) : state :=
  set_items_processed (to_int (items_processed s + i)) s.

(** [argv] is the array of [argc + 1] pointers the process was given, [None]
    for a null pointer.  The result is [None] where the last argument,
    argv[argc - 1], is not an element of the array or is a null pointer, on
    which [strcmp] is undefined.  Otherwise it holds the count and the array
    as the call leaves them. *)
Definition fo_scheduler_connect (argc : Z) (argv : list (option cmem)) (s : state)
  : option (Z * list (option cmem) * state) :=
  let s := set_found 0 s in
  if argc - 1 <? 0 then None
  else
    match nth_error argv (Z.to_nat (argc - 1)) with
    | Some (Some last_arg) =>
        let '(argc, argv, s) :=
          if strcmp last_arg (lit "--scheduler_start") =? 0
          then
            let s := fprintf_stdout (cstr SVN_REV ++ [LF]) s in
            let argc := argc - 1 in
            let argv := firstn (Z.to_nat argc) argv ++ None :: skipn (S (Z.to_nat argc)) argv in
            (argc, argv, set_found 1 s)
          else (argc, argv, s) in
        let s := set_items_processed 0 s in
        let s := set_buffer (repeat NUL BUFSIZE) s in
        let s := set_valid 0 s in
        let s := set_verbose 0 s in
        let s :=
          if found s =? 0 then s
          else
            let s := fprintf_stdout (line "OK") s in
            let s := fflush_stdout s in
            let s := signal_SIGALRM HEARTBEAT s in
            alarm ALARM_SECS s in
        Some (argc, argv, s)
    | _ => None
    end.

Definition fo_scheduler_disconnect (s : state) : outcome unit :=
  let s :=
    if found s =? 0 then s
    else fflush_stdout (fprintf_stdout (line "BYE") s) in
  exit 0 s.

(** The body of [fo_scheduler_next] up to its [return] or recursive call. *)
Definition next_pass (s : state) : pass :=
  let s := fflush_stdout s in
  match fgets BUFSIZE s with
  | None => Return NULL (set_valid 0 s)
  | Some s =>
      if strncmp (buffer s) (lit "CLOSE") 5 =? 0 then
        Return NULL (set_valid 0 s)
      else if strncmp (buffer s) (lit "END") 3 =? 0 then
        let s := fprintf_stdout (line "OK") s in
        let s := fflush_stdout s in
        Recurse s
      else if strncmp (buffer s) (lit "VERBOSE") 7 =? 0 then
        let s := set_verbose (atoi (skipn 8 (buffer s))) s in
        let s := set_valid 0 s in
        Recurse s
      else if strncmp (buffer s) (lit "VERSION") 7 =? 0 then
        let s := fprintf_stdout (cstr SVN_REV ++ [LF]) s in
        let s := set_valid 0 s in
        Recurse s
      else
        Return BUFFER (set_valid 1 s)
  end.

(** The recursion of [fo_scheduler_next], bounded by [fuel] calls. *)
Fixpoint next_calls (fuel : nat) (s : state) : option (charp * state) :=
  match fuel with
  | O => None
  | S fuel' =>
      match next_pass s with
      | Return p s' => Some (p, s')
      | Recurse s' => next_calls fuel' s'
      end
  end.

(** Every recursive call has read at least one character, so one call more
    than there are unread characters is enough ([next_calls_enough]). *)
Definition fo_scheduler_next (s : state) : charp * state :=
  match next_calls (S (length (stdin s))) s with
  | Some r => r
  | None => (NULL, s)
  end.

Definition fo_scheduler_current (s : state) : charp :=
  if valid s =? 0 then NULL else BUFFER.

End Agent.

(** ** The inbound stream as lines *)

(** The stream cut the way successive calls of [fgets] cut it. *)
Fixpoint lines_fuel (fuel : nat) (input : list ascii) : list (list ascii) :=
  match fuel, input with
  | S fuel', _ :: _ =>
      let (l, r) := read_chunk (BUFSIZE - 1) input in l :: lines_fuel fuel' r
  | _, _ => []
  end.

Definition lines (input : list ascii) : list (list ascii) :=
  lines_fuel (length input) input.

Fixpoint take_while {A : Type} (f : A -> bool) (l : list A) : list A :=
  match l with
  | x :: r => if f x then x :: take_while f r else []
  | [] => []
  end.

Fixpoint drop_while {A : Type} (f : A -> bool) (l : list A) : list A :=
  match l with
  | x :: r => if f x then drop_while f r else l
  | [] => []
  end.

(** The number of lines a call of [fo_scheduler_next] takes from stdin. *)
Definition lines_consumed (rev : cmem) (s : state) : nat :=
  (length (lines (stdin s)) - length (lines (stdin (snd (fo_scheduler_next rev s)))))%nat.

(** An inbound line as the protocol has it: text without NUL, ended by its
    only newline, and short enough for one [fgets]. *)
Definition inbound_line (l : list ascii) : Prop :=
  (exists body, l = body ++ [LF] /\ ~ In LF body) /\
  ~ In NUL l /\
  (length l < BUFSIZE)%nat.

(** [p] is a prefix of [l], character by character. *)
Fixpoint starts_with (p l : list ascii) : bool :=
  match p, l with
  | [], _ => true
  | a :: p', b :: l' => Ascii.eqb a b && starts_with p' l'
  | _ :: _, [] => false
  end.

(** The state [fgets] leaves when it has read [l] and [rest] stays unread. *)
Definition after_fgets (l rest : list ascii) (s : state) : state :=
  set_stdin rest (set_buffer (l ++ NUL :: skipn (S (length l)) (buffer s)) s).

(** The decidable form of [inbound_line]. *)
Definition inbound_lineb (l : list ascii) : bool :=
  match rev l with
  | c :: body =>
      Ascii.eqb c LF && negb (existsb (Ascii.eqb LF) body) &&
      negb (existsb (Ascii.eqb NUL) l) && (length l <? BUFSIZE)%nat
  | [] => false
  end.

(** What the scheduler is sent for the line [l]: OK for END, the revision
    for VERSION, nothing otherwise. *)
Definition response (revision : cmem) (l : cmem) : list ascii :=
  match classify l with
  | End => line "OK"
  | Version => cstr revision ++ [LF]
  | Close | Verbose | Data => []
  end.

(** The value of [verbose] after the line [l], from the value [v] before. *)
Definition verbose_after (v : Z) (l : cmem) : Z :=
  match classify l with
  | Verbose => atoi (skipn 8 l)
  | Close | End | Version | Data => v
  end.

(** A VERBOSE line reaches index 8 of the buffer. *)
Definition verbose_has_argument (l : cmem) : bool :=
  match classify l with
  | Verbose => (8 <=? length l)%nat
  | Close | End | Version | Data => true
  end.

(** Two states with the same variables of the protocol and the same unread
    input; stdout, the handler and the alarm may differ. *)
Definition same_session (s t : state) : Prop :=
  items_processed s = items_processed t /\
  buffer s = buffer t /\
  valid s = valid t /\
  found s = found t /\
  verbose s = verbose t /\
  stdin s = stdin t.

(** Calls of [fo_scheduler_heart], one for each element, in order. *)
Definition heart_all (incs : list Z) (s : state) : state :=
  fold_left (fun s i => fo_scheduler_heart i s) incs s.

(** [k] deliveries of SIGALRM to [fo_heartbeat]. *)
Definition heartbeats (secs : Z) (k : nat) (s : state) : state :=
  Nat.iter k (fo_heartbeat secs) s.

(** ** An inbound stream that need not end *)

(** The character at each position of the stream, and [None] where the
    stream has ended.  Nothing makes a stream end.  A call of [fgets] that
    has to wait reads what arrives, so the stream is all the scheduler
    sends, early or late. *)
Definition stream : Type := nat -> option ascii.

(** The stream that is [input] and then the end of file. *)
Definition stream_of (input : list ascii) : stream := nth_error input.

(** The next [n] characters from [pos] on, fewer where the stream ends: all
    that one call of [fgets] with a buffer of [n + 1] bytes looks at. *)
Fixpoint window (n : nat) (src : stream) (pos : nat) : list ascii :=
  match n with
  | O => []
  | S n' =>
      match src pos with
      | Some c => c :: window n' src (S pos)
      | None => []
      end
  end.

(** The line [fgets] takes at [pos]; it is empty at the end of file only. *)
Definition line_at (src : stream) (pos : nat) : list ascii :=
  fst (read_chunk (BUFSIZE - 1) (window (BUFSIZE - 1) src pos)).

(** The position [k] lines after [pos]. *)
Fixpoint pos_after (src : stream) (pos : nat) (k : nat) : nat :=
  match k with
  | O => pos
  | S k' => pos_after src (pos + length (line_at src pos))%nat k'
  end.

Definition pass_state (r : pass) : state :=
  match r with
  | Return _ s => s
  | Recurse s => s
  end.

(** One pass of [fo_scheduler_next] on a stream: [stdin] holds what [fgets]
    can look at, and the position moves on by what the pass has read. *)
Definition stream_pass (revision : cmem) (src : stream) (pos : nat) (s : state)
  : pass * nat :=
  let w := window (BUFSIZE - 1) src pos in
  let r := next_pass revision (set_stdin w s) in
  (r, (pos + (length w - length (stdin (pass_state r))))%nat).

(** The recursion of [fo_scheduler_next] on a stream, bounded by [fuel]
    calls; the result holds the position the call has reached. *)
Fixpoint stream_calls (revision : cmem) (fuel : nat) (src : stream) (pos : nat)
    (s : state) : option (charp * state * nat) :=
  match fuel with
  | O => None
  | S fuel' =>
      match stream_pass revision src pos s with
      | (Return p s', pos') => Some (p, s', pos')
      | (Recurse s', pos') => stream_calls revision fuel' src pos' s'
      end
  end.

(** From [pos] on the stream has [k] control lines and then a line that is
    none, or its end. *)
Definition reaches_after (src : stream) (pos : nat) (k : nat) : Prop :=
  (forall i, (i < k)%nat -> is_control (line_at src (pos_after src pos i)) = true) /\
  is_control (line_at src (pos_after src pos k)) = false.

(** The stream of the line END, again and again. *)
Definition endless_END : stream := fun pos => nth_error (line "END") (pos mod 4).

(** * Properties *)

Example fmt_d_7 : fmt_d 7 = lit "7".
Proof. reflexivity. Qed.

Example fmt_d_neg : fmt_d (-120) = lit "-120".
Proof. reflexivity. Qed.

Example fmt_d_0 : fmt_d 0 = lit "0".
Proof. reflexivity. Qed.

Example atoi_5 : atoi (lit "5" ++ [LF]) = 5.
Proof. reflexivity. Qed.

Example atoi_neg : atoi (lit "  -42abc") = -42.
Proof. reflexivity. Qed.

Example atoi_word : atoi (lit "debug" ++ [LF]) = 0.
Proof. reflexivity. Qed.

Example atoi_beyond_long : atoi (lit "99999999999999999999") = -1.
Proof. reflexivity. Qed.

Example atoi_below_long : atoi (lit "-99999999999999999999") = 0.
Proof. reflexivity. Qed.

Example atoi_beyond_int : atoi (lit "4294967297") = 1.
Proof. reflexivity. Qed.

Example strncmp_close : strncmp (lit "CLOSE" ++ [LF; NUL]) (lit "CLOSE") 5 = 0.
Proof. reflexivity. Qed.

Example strncmp_short : strncmp (lit "CLO" ++ [NUL]) (lit "CLOSE") 5 = - 83.
Proof. reflexivity. Qed.

(** ** C strings *)

Lemma code_inj (a b : ascii) : code a = code b -> a = b.
Proof.
  unfold code. intros H. apply Nat2Z.inj in H.
  rewrite <- (ascii_nat_embedding a), <- (ascii_nat_embedding b).
  now rewrite H.
Qed.

Lemma code_diff (a b : ascii) : Ascii.eqb a b = false -> code a - code b <> 0.
Proof.
  intros H E. apply Ascii.eqb_neq in H. apply H, code_inj. lia.
Qed.

(** Memory after the terminating NUL does not matter to [strncmp]. *)
Lemma strncmp_nul_tail (n : nat) : forall l r t,
  strncmp (l ++ NUL :: r) t n = strncmp l t n.
Proof.
  induction n as [|n IH]; intros l r t; [reflexivity|].
  destruct l as [|c l]; cbn [strncmp app hd tl].
  - destruct (Ascii.eqb NUL (hd NUL t)); cbn; [|reflexivity].
    now destruct n.
  - destruct (Ascii.eqb c (hd NUL t)); cbn [negb]; [|reflexivity].
    destruct (Ascii.eqb c NUL); [reflexivity|]. apply IH.
Qed.

(** Against a literal without NUL, [strncmp] over the literal's length is the
    prefix test. *)
Lemma strncmp_starts_with : forall p l,
  ~ In NUL p ->
  (strncmp l p (length p) =? 0) = starts_with p l.
Proof.
  induction p as [|a p IH]; intros l Hnul; [reflexivity|].
  assert (Ha : Ascii.eqb a NUL = false).
  { apply Ascii.eqb_neq. intros ->. apply Hnul. now left. }
  assert (Hp : ~ In NUL p) by (intros H; apply Hnul; now right).
  cbn [length strncmp starts_with hd tl].
  destruct l as [|b l]; cbn [hd tl].
  - rewrite Ascii.eqb_sym, Ha. cbn [negb].
    apply Z.eqb_neq, code_diff. now rewrite Ascii.eqb_sym.
  - rewrite (Ascii.eqb_sym a b).
    destruct (Ascii.eqb b a) eqn:E; cbn [negb andb].
    + apply Ascii.eqb_eq in E. subst b. rewrite Ha. now apply IH.
    + now apply Z.eqb_neq, code_diff.
Qed.

Lemma cstr_app_nul : forall l r, ~ In NUL l -> cstr (l ++ NUL :: r) = l.
Proof.
  induction l as [|c l IH]; intros r H; cbn.
  - reflexivity.
  - destruct (Ascii.eqb c NUL) eqn:E.
    + apply Ascii.eqb_eq in E. subst c. exfalso. apply H. now left.
    + f_equal. apply IH. intros Hin. apply H. now right.
Qed.

Lemma cstr_length : forall p, (length (cstr p) <= length p)%nat.
Proof.
  induction p as [|c p IH]; cbn; [lia|].
  destruct (Ascii.eqb c NUL); cbn; lia.
Qed.

Lemma cstr_repeat_nul (n : nat) : cstr (repeat NUL n) = [].
Proof. now destruct n. Qed.

Lemma strcmp_fuel_cstr : forall s1 fuel s2,
  cstr s1 = s2 -> (length s2 < fuel)%nat -> strcmp_fuel fuel s1 s2 = 0.
Proof.
  induction s1 as [|c r IH]; intros fuel s2 E Hf.
  - cbn in E. subst s2. destruct fuel; reflexivity.
  - destruct fuel as [|fuel]; [lia|].
    cbn in E. cbn [strcmp_fuel hd tl].
    destruct (Ascii.eqb c NUL) eqn:Ec.
    + subst s2. apply Ascii.eqb_eq in Ec. subst c. reflexivity.
    + subst s2. cbn [hd tl]. rewrite Ascii.eqb_refl. cbn [negb].
      apply IH; [reflexivity|]. cbn in Hf. lia.
Qed.

Lemma strcmp_cstr (s1 s2 : cmem) : cstr s1 = s2 -> strcmp s1 s2 = 0.
Proof.
  intros E. apply strcmp_fuel_cstr; [exact E|].
  subst s2. pose proof (cstr_length s1). lia.
Qed.

Lemma strcmp_fuel_zero : forall s1 fuel s2,
  (length s1 < fuel)%nat -> strcmp_fuel fuel s1 s2 = 0 -> cstr s1 = cstr s2.
Proof.
  induction s1 as [|c r IH]; intros fuel s2 Hf H;
    (destruct fuel as [|fuel]; [cbn in Hf; lia|]); cbn [strcmp_fuel hd tl] in H.
  - destruct (Ascii.eqb NUL (hd NUL s2)) eqn:E; cbn [negb] in H.
    + apply Ascii.eqb_eq in E. destruct s2 as [|c2 r2]; [reflexivity|].
      cbn in E. subst c2. reflexivity.
    + now apply code_diff in E.
  - destruct (Ascii.eqb c (hd NUL s2)) eqn:E; cbn [negb] in H.
    + apply Ascii.eqb_eq in E. cbn [cstr].
      destruct (Ascii.eqb c NUL) eqn:Ec.
      * apply Ascii.eqb_eq in Ec. rewrite Ec in E.
        destruct s2 as [|c2 r2]; [reflexivity|]. cbn in E. now rewrite <- E.
      * destruct s2 as [|c2 r2].
        { cbn in E. subst c. now rewrite Ascii.eqb_refl in Ec. }
        cbn in E. subst c2. cbn [cstr tl] in *. rewrite Ec. f_equal.
        apply (IH fuel); [cbn in Hf; lia | exact H].
    + now apply code_diff in E.
Qed.

(** [strcmp] answers 0 on equal strings only. *)
Lemma strcmp_zero_cstr (s1 s2 : cmem) : strcmp s1 s2 = 0 -> cstr s1 = cstr s2.
Proof. apply strcmp_fuel_zero. lia. Qed.

(** ** atoi *)

Lemma to_int_0 : to_int 0 = 0.
Proof. reflexivity. Qed.

Lemma to_int_in_range (z : Z) : in_int z -> to_int z = z.
Proof.
  unfold in_int, INT_MIN, INT_MAX, to_int. intros H.
  rewrite Z.mod_small; lia.
Qed.

Lemma digits_value_nul_tail : forall l acc r,
  digits_value acc (l ++ NUL :: r) = digits_value acc l.
Proof.
  induction l as [|c l IH]; intros acc r; cbn.
  - reflexivity.
  - destruct (isdigit c); [apply IH | reflexivity].
Qed.

(** [atoi] stops at the terminating NUL. *)
Lemma strtol_nul_tail : forall l r, strtol (l ++ NUL :: r) = strtol l.
Proof.
  unfold strtol. induction l as [|c l IH]; intros r.
  - reflexivity.
  - cbn [app skip_space]. destruct (isspace c); [apply IH|].
    destruct (Ascii.eqb c "-"); [now rewrite digits_value_nul_tail|].
    destruct (Ascii.eqb c "+"); [now rewrite digits_value_nul_tail|].
    now rewrite app_comm_cons, digits_value_nul_tail.
Qed.

Lemma atoi_nul_tail : forall l r, atoi (l ++ NUL :: r) = atoi l.
Proof. intros l r. unfold atoi. now rewrite strtol_nul_tail. Qed.

Lemma atoi_not_numeric (p : cmem) : numeric p = false -> atoi p = 0.
Proof.
  unfold numeric, atoi, strtol. destruct (skip_space p) as [|c r]; [reflexivity|].
  destruct (Ascii.eqb c "-") eqn:Em; cbn [orb].
  - destruct r as [|d r]; [reflexivity|]. cbn. now intros ->.
  - destruct (Ascii.eqb c "+") eqn:Ep.
    + destruct r as [|d r]; [reflexivity|]. cbn. now intros ->.
    + cbn. now intros ->.
Qed.

Lemma saturate_long_in_int (z : Z) : in_int z -> saturate_long z = z.
Proof.
  unfold in_int, INT_MIN, INT_MAX, saturate_long, LONG_MIN, LONG_MAX. lia.
Qed.

(** A number within [int] is read as it stands. *)
Lemma atoi_digits (c : ascii) (r : cmem) :
  isdigit c = true -> in_int (digits_value 0 (c :: r)) ->
  atoi (c :: r) = digits_value 0 (c :: r).
Proof.
  intros Hd Hr. unfold atoi, strtol. cbn [skip_space].
  assert (Hs : isspace c = false).
  { unfold isdigit, isspace in *. destruct (code c =? 32) eqn:E32.
    - apply Z.eqb_eq in E32. rewrite E32 in Hd. discriminate Hd.
    - apply andb_prop in Hd as [H1 H2]. apply Z.leb_le in H1.
      cbn [orb]. apply andb_false_iff. right. apply Z.leb_gt. lia. }
  assert (Hm : Ascii.eqb c "-" = false).
  { apply Ascii.eqb_neq. intros ->. discriminate Hd. }
  assert (Hp : Ascii.eqb c "+" = false).
  { apply Ascii.eqb_neq. intros ->. discriminate Hd. }
  rewrite Hs, Hm, Hp, saturate_long_in_int by exact Hr.
  now apply to_int_in_range.
Qed.

(** ** Reading from stdin *)

Lemma BUFSIZE_min : (9 <= BUFSIZE - 1)%nat.
Proof. apply Nat.leb_le. reflexivity. Qed.

Lemma read_chunk_app (n : nat) : forall input,
  fst (read_chunk n input) ++ snd (read_chunk n input) = input.
Proof.
  induction n as [|n IH]; intros [|c rest]; cbn; try reflexivity.
  destruct (Ascii.eqb c LF); [reflexivity|].
  specialize (IH rest). destruct (read_chunk n rest) as [l r].
  cbn in *. now rewrite IH.
Qed.

Lemma read_chunk_shorter (n : nat) (c : ascii) (rest : list ascii) :
  (1 <= n)%nat ->
  (length (snd (read_chunk n (c :: rest))) <= length rest)%nat.
Proof.
  intros Hn. destruct n as [|n]; [lia|]. cbn.
  destruct (Ascii.eqb c LF); [cbn; lia|].
  pose proof (read_chunk_app n rest) as H.
  destruct (read_chunk n rest) as [l r]. cbn in *.
  rewrite <- H, length_app. lia.
Qed.

Lemma read_chunk_nonempty (n : nat) (c : ascii) (rest : list ascii) :
  (1 <= n)%nat -> fst (read_chunk n (c :: rest)) <> [].
Proof.
  intros Hn. destruct n as [|n]; [lia|]. cbn.
  destruct (Ascii.eqb c LF); [discriminate|].
  destruct (read_chunk n rest). discriminate.
Qed.

(** A chunk starts with any newline-free prefix of the input that fits. *)
Lemma read_chunk_prefix : forall p n rest,
  ~ In LF p -> (length p <= n)%nat ->
  exists l', fst (read_chunk n (p ++ rest)) = p ++ l'.
Proof.
  induction p as [|a p IH]; intros n rest Hlf Hn.
  - now exists (fst (read_chunk n rest)).
  - destruct n as [|n]; [cbn in Hn; lia|]. cbn.
    destruct (Ascii.eqb a LF) eqn:E.
    + apply Ascii.eqb_eq in E. subst a. exfalso. apply Hlf. now left.
    + destruct (IH n rest) as [l' Hl'].
      * intros H. apply Hlf. now right.
      * cbn in Hn. lia.
      * destruct (read_chunk n (p ++ rest)) as [l r]. cbn in *.
        exists l'. now rewrite Hl'.
Qed.

(** A whole line is read by one call. *)
Lemma read_chunk_line : forall body n rest,
  ~ In LF body -> (length body < n)%nat ->
  read_chunk n (body ++ LF :: rest) = (body ++ [LF], rest).
Proof.
  induction body as [|a body IH]; intros n rest Hlf Hn.
  - destruct n as [|n]; [cbn in Hn; lia|]. reflexivity.
  - destruct n as [|n]; [cbn in Hn; lia|]. cbn.
    destruct (Ascii.eqb a LF) eqn:E.
    + apply Ascii.eqb_eq in E. subst a. exfalso. apply Hlf. now left.
    + rewrite IH; [reflexivity | | cbn in Hn; lia].
      intros H. apply Hlf. now right.
Qed.

Lemma read_chunk_inbound_line (l rest : list ascii) :
  inbound_line l -> read_chunk (BUFSIZE - 1) (l ++ rest) = (l, rest).
Proof.
  intros [[body [-> Hlf]] [_ Hlen]].
  rewrite <- app_assoc. cbn [app].
  apply read_chunk_line; [exact Hlf|].
  rewrite length_app in Hlen. cbn in Hlen. lia.
Qed.

Lemma existsb_eqb_false (c : ascii) (l : list ascii) :
  existsb (Ascii.eqb c) l = false -> ~ In c l.
Proof.
  intros H Hin.
  assert (E : existsb (Ascii.eqb c) l = true).
  { apply existsb_exists. exists c. split; [exact Hin | apply Ascii.eqb_refl]. }
  congruence.
Qed.

Lemma inbound_lineb_true (l : list ascii) : inbound_lineb l = true -> inbound_line l.
Proof.
  unfold inbound_lineb, inbound_line.
  destruct (rev l) as [|c body] eqn:E; [discriminate|].
  intros H. apply andb_prop in H as [H Hlen].
  apply andb_prop in H as [H Hnul]. apply andb_prop in H as [Hc Hlf].
  apply Ascii.eqb_eq in Hc. subst c.
  apply negb_true_iff in Hlf, Hnul. apply Nat.ltb_lt in Hlen.
  assert (El : l = rev body ++ [LF]).
  { rewrite <- (rev_involutive l), E. reflexivity. }
  repeat split.
  - exists (rev body). split; [exact El|].
    intros Hin. apply in_rev in Hin. revert Hin. now apply existsb_eqb_false.
  - now apply existsb_eqb_false.
  - exact Hlen.
Qed.

Lemma fgets_eof (s : state) : stdin s = [] -> fgets BUFSIZE s = None.
Proof. unfold fgets. now intros ->. Qed.

Lemma fgets_chunk (s : state) :
  stdin s <> [] ->
  fgets BUFSIZE s =
    Some (after_fgets (fst (read_chunk (BUFSIZE - 1) (stdin s)))
                      (snd (read_chunk (BUFSIZE - 1) (stdin s))) s).
Proof.
  unfold fgets. destruct (stdin s) as [|c rest]; [congruence|]. intros _.
  now destruct (read_chunk (BUFSIZE - 1) (c :: rest)).
Qed.

Lemma classify_nul_tail (l r : cmem) : classify (l ++ NUL :: r) = classify l.
Proof. unfold classify. now rewrite !strncmp_nul_tail. Qed.

Lemma classify_starts_with (l : cmem) :
  classify l =
    if starts_with (lit "CLOSE") l then Close
    else if starts_with (lit "END") l then End
    else if starts_with (lit "VERBOSE") l then Verbose
    else if starts_with (lit "VERSION") l then Version
    else Data.
Proof.
  unfold classify.
  rewrite <- !strncmp_starts_with; [reflexivity| | | |];
    cbn; intros H; repeat (destruct H as [H|H]; [discriminate H|]); exact H.
Qed.

Section Next.

Variable SVN_REV : cmem.

(** ** One pass of fo_scheduler_next *)

(** The pass in terms of the line it reads: the five cases of the source. *)
Lemma next_pass_eof (s : state) :
  stdin s = [] ->
  next_pass SVN_REV s = Return NULL (set_valid 0 (fflush_stdout s)).
Proof.
  intros H. unfold next_pass. now rewrite fgets_eof.
Qed.

Lemma next_pass_read (s : state) (l rest : list ascii) :
  stdin s <> [] ->
  read_chunk (BUFSIZE - 1) (stdin s) = (l, rest) ->
  let s1 := after_fgets l rest (fflush_stdout s) in
  next_pass SVN_REV s =
    match classify l with
    | Close => Return NULL (set_valid 0 s1)
    | End => Recurse (fflush_stdout (fprintf_stdout (line "OK") s1))
    | Verbose => Recurse (set_valid 0 (set_verbose (atoi (skipn 8 (buffer s1))) s1))
    | Version => Recurse (set_valid 0 (fprintf_stdout (cstr SVN_REV ++ [LF]) s1))
    | Data => Return BUFFER (set_valid 1 s1)
    end.
Proof.
  intros Hne Hread s1. unfold next_pass.
  rewrite fgets_chunk by exact Hne.
  change (stdin (fflush_stdout s)) with (stdin s). rewrite Hread.
  cbn [fst snd]. fold s1.
  assert (Hc : classify (buffer s1) = classify l) by apply classify_nul_tail.
  unfold classify in Hc at 1.
  destruct (strncmp (buffer s1) (lit "CLOSE") 5 =? 0);
    [now rewrite <- Hc|].
  destruct (strncmp (buffer s1) (lit "END") 3 =? 0);
    [now rewrite <- Hc|].
  destruct (strncmp (buffer s1) (lit "VERBOSE") 7 =? 0);
    [now rewrite <- Hc|].
  destruct (strncmp (buffer s1) (lit "VERSION") 7 =? 0);
    now rewrite <- Hc.
Qed.

Lemma next_pass_line (s : state) (l rest : list ascii) :
  inbound_line l -> stdin s = l ++ rest ->
  let s1 := after_fgets l rest (fflush_stdout s) in
  next_pass SVN_REV s =
    match classify l with
    | Close => Return NULL (set_valid 0 s1)
    | End => Recurse (fflush_stdout (fprintf_stdout (line "OK") s1))
    | Verbose => Recurse (set_valid 0 (set_verbose (atoi (skipn 8 (buffer s1))) s1))
    | Version => Recurse (set_valid 0 (fprintf_stdout (cstr SVN_REV ++ [LF]) s1))
    | Data => Return BUFFER (set_valid 1 s1)
    end.
Proof.
  intros Hl Hin. apply next_pass_read.
  - rewrite Hin. destruct Hl as [[body [-> _]] _].
    now destruct body.
  - rewrite Hin. now apply read_chunk_inbound_line.
Qed.

(** A recursive call finds strictly less to read. *)
Lemma next_pass_recurse (s s' : state) :
  next_pass SVN_REV s = Recurse s' ->
  (length (stdin s') < length (stdin s))%nat.
Proof.
  destruct (stdin s) as [|c rest] eqn:Hin.
  - rewrite next_pass_eof by exact Hin. discriminate.
  - pose proof (read_chunk_shorter (BUFSIZE - 1) c rest) as Hlen.
    assert (Hne : stdin s <> []) by (rewrite Hin; discriminate).
    destruct (read_chunk (BUFSIZE - 1) (stdin s)) as [l r] eqn:Hread.
    rewrite (next_pass_read s l r Hne Hread).
    rewrite Hin in Hread. rewrite Hread in Hlen. cbn [snd] in Hlen.
    assert (H1 : (1 <= BUFSIZE - 1)%nat) by (pose proof BUFSIZE_min; lia).
    specialize (Hlen H1).
    destruct (classify l); intros [= <-]; cbn; lia.
Qed.

(** ** The recursion *)

Lemma next_calls_enough (fuel : nat) : forall s,
  (length (stdin s) < fuel)%nat ->
  exists r, next_calls SVN_REV fuel s = Some r.
Proof.
  induction fuel as [|fuel IH]; intros s Hf; [lia|].
  cbn. destruct (next_pass SVN_REV s) as [p s'|s'] eqn:E.
  - now exists (p, s').
  - apply IH. apply next_pass_recurse in E. lia.
Qed.

Lemma next_calls_more (fuel : nat) : forall s r fuel',
  next_calls SVN_REV fuel s = Some r -> (fuel <= fuel')%nat ->
  next_calls SVN_REV fuel' s = Some r.
Proof.
  induction fuel as [|fuel IH]; intros s r fuel' H Hle; [discriminate|].
  destruct fuel' as [|fuel']; [lia|]. cbn in *.
  destruct (next_pass SVN_REV s); [exact H|].
  apply (IH _ _ _ H). lia.
Qed.

Lemma fo_scheduler_next_calls (s : state) :
  next_calls SVN_REV (S (length (stdin s))) s = Some (fo_scheduler_next SVN_REV s).
Proof.
  unfold fo_scheduler_next.
  destruct (next_calls_enough (S (length (stdin s))) s) as [r Hr]; [lia|].
  now rewrite Hr.
Qed.

(** The equation of the source: a [return] of the pass is the result, and
    otherwise the result is that of the recursive call. *)
Lemma fo_scheduler_next_eq (s : state) :
  fo_scheduler_next SVN_REV s =
    match next_pass SVN_REV s with
    | Return p s' => (p, s')
    | Recurse s' => fo_scheduler_next SVN_REV s'
    end.
Proof.
  pose proof (fo_scheduler_next_calls s) as H. cbn in H.
  destruct (next_pass SVN_REV s) as [p s'|s'] eqn:E.
  - congruence.
  - pose proof (fo_scheduler_next_calls s') as H'.
    apply next_pass_recurse in E.
    apply (next_calls_more _ _ _ (length (stdin s))) in H'; [|lia].
    congruence.
Qed.

(** ** Data lines *)

(** C1: an inbound line that starts with none of CLOSE, END, VERBOSE and
    VERSION is returned by fo_scheduler_next as it was read, and
    fo_scheduler_current then returns the same text. *)
Theorem C1_data_line_returned (s : state) (l rest : list ascii) :
  inbound_line l ->
  starts_with (lit "CLOSE") l = false ->
  starts_with (lit "END") l = false ->
  starts_with (lit "VERBOSE") l = false ->
  starts_with (lit "VERSION") l = false ->
  stdin s = l ++ rest ->
  exists s',
    fo_scheduler_next SVN_REV s = (BUFFER, s') /\
    text_at BUFFER s' = Some l /\
    fo_scheduler_current s' = BUFFER /\
    text_at (fo_scheduler_current s') s' = Some l /\
    stdin s' = rest.
Proof.
  intros Hl Hc He Hvb Hvs Hin.
  rewrite fo_scheduler_next_eq, (next_pass_line s l rest Hl Hin).
  rewrite classify_starts_with, Hc, He, Hvb, Hvs.
  eexists. split; [reflexivity|].
  cbn. rewrite !cstr_app_nul by apply Hl. repeat split.
Qed.

(** ** End of work *)

(** C2: at end of file, and on a line that begins with CLOSE,
    fo_scheduler_next returns NULL and so does a following
    fo_scheduler_current; in both cases the flag is cleared, nothing is
    written to stdout and the other variables stay as they were. *)
Theorem C2_close_or_eof (s : state) :
  stdin s = [] \/ (exists rest, stdin s = lit "CLOSE" ++ rest) ->
  exists s',
    fo_scheduler_next SVN_REV s = (NULL, s') /\
    fo_scheduler_current s' = NULL /\
    valid s' = 0 /\
    stdout_all s' = stdout_all s /\
    items_processed s' = items_processed s /\
    verbose s' = verbose s /\
    found s' = found s /\
    sigalrm s' = sigalrm s /\
    alarm_in s' = alarm_in s.
Proof.
  intros [Heof | [rest Hin]]; rewrite fo_scheduler_next_eq.
  - rewrite next_pass_eof by exact Heof.
    eexists. split; [reflexivity|].
    unfold stdout_all. cbn. rewrite app_nil_r. repeat split.
  - assert (Hne : stdin s <> []) by (rewrite Hin; discriminate).
    destruct (read_chunk (BUFSIZE - 1) (stdin s)) as [l r] eqn:Hread.
    rewrite (next_pass_read s l r Hne Hread).
    destruct (read_chunk_prefix (lit "CLOSE") (BUFSIZE - 1) rest) as [l' Hl'].
    { cbn. intros H. repeat (destruct H as [H|H]; [discriminate H|]). exact H. }
    { pose proof BUFSIZE_min. cbn [lit list_ascii_of_string length]. lia. }
    rewrite <- Hin, Hread in Hl'. cbn [fst] in Hl'. subst l.
    rewrite classify_starts_with.
    change (starts_with (lit "CLOSE") (lit "CLOSE" ++ l')) with true.
    eexists. split; [reflexivity|].
    unfold stdout_all. cbn. rewrite app_nil_r. repeat split.
Qed.

(** ** Control lines *)

(** C3, as the code has it: with the lines END and baz.txt next on stdin,
    one call of fo_scheduler_next sends one OK line and returns the second
    line as it was read, newline included; the END line is not returned. *)
Theorem C3_end_acknowledged (s : state) (rest : list ascii) :
  stdin s = line "END" ++ line "baz.txt" ++ rest ->
  exists s',
    fo_scheduler_next SVN_REV s = (BUFFER, s') /\
    text_at BUFFER s' = Some (line "baz.txt") /\
    stdout_sent s' = stdout_all s ++ line "OK" /\
    stdout_buf s' = [] /\
    stdin s' = rest.
Proof.
  intros Hin.
  assert (L1 : inbound_line (line "END")) by (apply inbound_lineb_true; reflexivity).
  assert (L2 : inbound_line (line "baz.txt")) by (apply inbound_lineb_true; reflexivity).
  rewrite fo_scheduler_next_eq, (next_pass_line s _ _ L1 Hin).
  change (classify (line "END")) with End. cbv beta iota.
  rewrite fo_scheduler_next_eq.
  rewrite (next_pass_line _ (line "baz.txt") rest L2) by reflexivity.
  change (classify (line "baz.txt")) with Data. cbv beta iota.
  eexists. split; [reflexivity|].
  unfold stdout_all. cbn. rewrite app_nil_r. repeat split.
Qed.

(** C4, as the code has it: on an inbound line that begins with VERBOSE,
    the pass sets verbose to what atoi reads from the ninth character on,
    0 where no number starts there, and recurses, so that the result of
    the call is that of the recursive call; and with the lines VERBOSE 5 and
    bar.txt next on stdin, the call returns the second line as it was read,
    newline included, and leaves verbose at 5. *)
Theorem C4_verbose_line :
  (forall (s : state) (sep : ascii) (suffix rest : list ascii),
     inbound_line (lit "VERBOSE" ++ sep :: suffix) ->
     stdin s = (lit "VERBOSE" ++ sep :: suffix) ++ rest ->
     exists s1,
       next_pass SVN_REV s = Recurse s1 /\
       fo_scheduler_next SVN_REV s = fo_scheduler_next SVN_REV s1 /\
       verbose s1 = atoi suffix /\
       (numeric suffix = false -> verbose s1 = 0) /\
       stdin s1 = rest) /\
  (forall (s : state) (rest : list ascii),
     stdin s = line "VERBOSE 5" ++ line "bar.txt" ++ rest ->
     exists s',
       fo_scheduler_next SVN_REV s = (BUFFER, s') /\
       text_at BUFFER s' = Some (line "bar.txt") /\
       verbose s' = 5 /\
       stdin s' = rest).
Proof.
  split.
  - intros s sep suffix rest Hl Hin.
    assert (Hpass : exists s1,
      next_pass SVN_REV s = Recurse s1 /\ verbose s1 = atoi suffix /\ stdin s1 = rest).
    { rewrite (next_pass_line s _ rest Hl Hin).
      rewrite classify_starts_with.
      change (starts_with (lit "CLOSE") (lit "VERBOSE" ++ sep :: suffix)) with false.
      change (starts_with (lit "END") (lit "VERBOSE" ++ sep :: suffix)) with false.
      change (starts_with (lit "VERBOSE") (lit "VERBOSE" ++ sep :: suffix)) with true.
      cbv beta iota. eexists. split; [reflexivity|].
      split; [|reflexivity].
      cbn. apply atoi_nul_tail. }
    destruct Hpass as [s1 [Hp [Hv Hr]]].
    exists s1. repeat split; try assumption.
    + now rewrite fo_scheduler_next_eq, Hp.
    + intros Hn. rewrite Hv. now apply atoi_not_numeric.
  - intros s rest Hin.
    assert (L1 : inbound_line (line "VERBOSE 5")) by (apply inbound_lineb_true; reflexivity).
    assert (L2 : inbound_line (line "bar.txt")) by (apply inbound_lineb_true; reflexivity).
    rewrite fo_scheduler_next_eq, (next_pass_line s _ _ L1 Hin).
    change (classify (line "VERBOSE 5")) with Verbose. cbv beta iota.
    rewrite fo_scheduler_next_eq.
    rewrite (next_pass_line _ (line "bar.txt") rest L2) by reflexivity.
    change (classify (line "bar.txt")) with Data. cbv beta iota.
    eexists. split; [reflexivity|]. repeat split.
Qed.

(** ** The flag valid *)

(** What a pass that reads [l] leaves in [valid]: 1 for data, 0 for CLOSE,
    VERBOSE and VERSION, and the old value for END. *)
Lemma next_pass_valid (s : state) (l rest : list ascii) :
  stdin s <> [] ->
  read_chunk (BUFSIZE - 1) (stdin s) = (l, rest) ->
  let s' := match next_pass SVN_REV s with Return _ s' => s' | Recurse s' => s' end in
  valid s' = match classify l with
             | Data => 1
             | End => valid s
             | Close | Verbose | Version => 0
             end.
Proof.
  intros Hne Hread. rewrite (next_pass_read s l rest Hne Hread).
  now destruct (classify l).
Qed.

(** When fo_scheduler_next returns, the flag tells whether data was
    returned. *)
Lemma fo_scheduler_next_valid (fuel : nat) : forall s,
  (length (stdin s) < fuel)%nat ->
  valid (snd (fo_scheduler_next SVN_REV s)) =
    match fst (fo_scheduler_next SVN_REV s) with BUFFER => 1 | NULL => 0 end.
Proof.
  induction fuel as [|fuel IH]; intros s Hf; [lia|].
  rewrite fo_scheduler_next_eq.
  destruct (next_pass SVN_REV s) as [p s'|s'] eqn:E.
  - destruct (stdin s) as [|c r] eqn:Hin.
    + rewrite next_pass_eof in E by exact Hin. now injection E as <- <-.
    + assert (Hne : stdin s <> []) by (rewrite Hin; discriminate).
      rewrite (next_pass_read s _ _ Hne (surjective_pairing _)) in E.
      destruct (classify _); try discriminate; now injection E as <- <-.
  - apply IH. apply next_pass_recurse in E. lia.
Qed.

(** C8, at a failing input: after the data line foo.txt has been returned,
    the pass that reads the line END leaves valid at 1, and
    fo_scheduler_current still answers with the buffer, which holds END. *)
Theorem C8_end_keeps_flag :
  let s1 := snd (fo_scheduler_next SVN_REV (initial (line "foo.txt" ++ line "END"))) in
  valid s1 = 1 /\
  exists s2,
    next_pass SVN_REV s1 = Recurse s2 /\
    classify (cstr (buffer s2)) = End /\
    valid s2 = 1 /\
    fo_scheduler_current s2 = BUFFER /\
    text_at (fo_scheduler_current s2) s2 = Some (line "END").
Proof.
  rewrite fo_scheduler_next_eq.
  assert (L1 : inbound_line (line "foo.txt")) by (apply inbound_lineb_true; reflexivity).
  assert (L2 : inbound_line (line "END")) by (apply inbound_lineb_true; reflexivity).
  rewrite (next_pass_line _ (line "foo.txt") (line "END") L1) by reflexivity.
  change (classify (line "foo.txt")) with Data. cbv beta iota zeta.
  split; [reflexivity|].
  rewrite (next_pass_line _ (line "END") [] L2) by reflexivity.
  change (classify (line "END")) with End. cbv beta iota.
  eexists. split; [reflexivity|].
  repeat split.
Qed.

(** ** The lines one call consumes *)

Lemma lines_fuel_enough (fuel : nat) : forall input fuel',
  (length input <= fuel)%nat -> (length input <= fuel')%nat ->
  lines_fuel fuel input = lines_fuel fuel' input.
Proof.
  induction fuel as [|fuel IH]; intros [|c rest] fuel' H H';
    try (cbn in H; lia); try (now destruct fuel').
  destruct fuel' as [|fuel']; [cbn in H'; lia|].
  cbn [lines_fuel].
  pose proof (read_chunk_shorter (BUFSIZE - 1) c rest) as Hlen.
  destruct (read_chunk (BUFSIZE - 1) (c :: rest)) as [l r]. cbn [snd] in Hlen.
  assert (H1 : (1 <= BUFSIZE - 1)%nat) by (pose proof BUFSIZE_min; lia).
  specialize (Hlen H1). cbn in H, H'.
  f_equal. apply IH; lia.
Qed.

Lemma lines_nil : lines [] = [].
Proof. reflexivity. Qed.

Lemma lines_cons (input l r : list ascii) :
  input <> [] -> read_chunk (BUFSIZE - 1) input = (l, r) ->
  lines input = l :: lines r.
Proof.
  intros Hne Hread. unfold lines.
  destruct input as [|c rest]; [congruence|].
  cbn [length lines_fuel]. rewrite Hread. f_equal.
  pose proof (read_chunk_shorter (BUFSIZE - 1) c rest) as Hlen.
  rewrite Hread in Hlen. cbn [snd] in Hlen.
  assert (H1 : (1 <= BUFSIZE - 1)%nat) by (pose proof BUFSIZE_min; lia).
  apply lines_fuel_enough; [auto | lia].
Qed.

Lemma concat_lines_fuel (fuel : nat) : forall input,
  (length input <= fuel)%nat -> concat (lines input) = input.
Proof.
  induction fuel as [|fuel IH]; intros [|c rest] Hf; try reflexivity;
    [cbn in Hf; lia|].
  pose proof (read_chunk_app (BUFSIZE - 1) (c :: rest)) as Happ.
  pose proof (read_chunk_shorter (BUFSIZE - 1) c rest) as Hlen.
  destruct (read_chunk (BUFSIZE - 1) (c :: rest)) as [l r] eqn:Hread.
  rewrite (lines_cons (c :: rest) l r) by (discriminate || exact Hread).
  cbn [fst snd] in *. cbn [concat]. rewrite IH; [exact Happ|].
  assert (H1 : (1 <= BUFSIZE - 1)%nat) by (pose proof BUFSIZE_min; lia).
  specialize (Hlen H1). cbn in Hf. lia.
Qed.

(** The lines put together are the stream. *)
Lemma concat_lines (input : list ascii) : concat (lines input) = input.
Proof. now apply (concat_lines_fuel (length input)). Qed.

Lemma take_drop_while {A : Type} (f : A -> bool) (l : list A) :
  take_while f l ++ drop_while f l = l.
Proof.
  induction l as [|x l IH]; cbn; [reflexivity|].
  destruct (f x); cbn; [now rewrite IH | reflexivity].
Qed.

Lemma next_stdin (fuel : nat) : forall s,
  (length (stdin s) < fuel)%nat ->
  lines (stdin (snd (fo_scheduler_next SVN_REV s))) =
    skipn 1 (drop_while is_control (lines (stdin s))).
Proof.
  induction fuel as [|fuel IH]; intros s Hf; [lia|].
  rewrite fo_scheduler_next_eq.
  destruct (stdin s) as [|c rest] eqn:Hin.
  - rewrite next_pass_eof by exact Hin. cbn. now rewrite Hin.
  - assert (Hne : stdin s <> []) by (rewrite Hin; discriminate).
    destruct (read_chunk (BUFSIZE - 1) (stdin s)) as [l r] eqn:Hread.
    pose proof (next_pass_recurse s) as Hrec.
    rewrite (next_pass_read s l r Hne Hread) in *.
    rewrite <- Hin, (lines_cons (stdin s) l r Hne Hread).
    cbn [drop_while]. unfold is_control.
    destruct (classify l); try reflexivity;
      (rewrite IH; [reflexivity|]; specialize (Hrec _ eq_refl); rewrite Hin in Hrec; lia).
Qed.

(** On an input that ends, a call of fo_scheduler_next ends too, and it
    takes from stdin the maximal leading run of control lines (END,
    VERBOSE, VERSION) and, where the input does not end there, the one line
    after the run; at end of file it takes the run alone. *)
Theorem C9_lines_consumed (s : state) :
  let ls := lines (stdin s) in
  next_calls SVN_REV (S (length (stdin s))) s = Some (fo_scheduler_next SVN_REV s) /\
  lines (stdin (snd (fo_scheduler_next SVN_REV s))) = skipn 1 (drop_while is_control ls) /\
  stdin (snd (fo_scheduler_next SVN_REV s)) = concat (skipn 1 (drop_while is_control ls)) /\
  lines_consumed SVN_REV s =
    (length (take_while is_control ls) + length (firstn 1 (drop_while is_control ls)))%nat.
Proof.
  intros ls. split; [apply fo_scheduler_next_calls|].
  assert (H : lines (stdin (snd (fo_scheduler_next SVN_REV s))) =
              skipn 1 (drop_while is_control ls)).
  { apply (next_stdin (S (length (stdin s)))). lia. }
  split; [exact H|].
  split; [now rewrite <- H, concat_lines|].
  unfold lines_consumed. rewrite H. fold ls.
  rewrite <- (take_drop_while is_control ls) at 1.
  rewrite <- (firstn_skipn 1 (drop_while is_control ls)) at 1.
  rewrite !length_app, Nat.add_assoc. apply Nat.add_sub.
Qed.

End Next.

(** ** A call on a stream that need not end *)

Lemma pos_after_last (src : stream) (k : nat) : forall pos,
  pos_after src pos (S k) =
    (pos_after src pos k + length (line_at src (pos_after src pos k)))%nat.
Proof.
  induction k as [|k IH]; intros pos; [reflexivity|].
  change (pos_after src pos (S (S k)))
    with (pos_after src (pos + length (line_at src pos))%nat (S k)).
  now rewrite IH.
Qed.

Lemma window_nil (n : nat) (src : stream) (pos : nat) :
  (1 <= n)%nat -> (window n src pos = [] <-> src pos = None).
Proof.
  intros Hn. destruct n as [|n]; [lia|]. cbn.
  destruct (src pos); split; intros H; try reflexivity; discriminate H.
Qed.

(** The line at [pos] is empty at the end of the stream only. *)
Lemma line_at_nil (src : stream) (pos : nat) :
  line_at src pos = [] <-> src pos = None.
Proof.
  assert (H1 : (1 <= BUFSIZE - 1)%nat) by (pose proof BUFSIZE_min; lia).
  unfold line_at. rewrite <- (window_nil (BUFSIZE - 1) src pos H1).
  destruct (window (BUFSIZE - 1) src pos) as [|c w] eqn:E.
  - split; [reflexivity|]. intros _. now destruct (BUFSIZE - 1)%nat.
  - split; [|discriminate]. intros H. exfalso.
    now apply (read_chunk_nonempty (BUFSIZE - 1) c w H1).
Qed.

Section OpenStream.

Variable SVN_REV : cmem.

(** A pass on a stream returns where the line at [pos] is no control line,
    recurses where it is one, and moves on by that line. *)
Lemma stream_pass_line (src : stream) (pos : nat) (s : state) :
  exists r,
    stream_pass SVN_REV src pos s = (r, (pos + length (line_at src pos))%nat) /\
    match r with
    | Return _ _ => is_control (line_at src pos) = false
    | Recurse _ => is_control (line_at src pos) = true
    end.
Proof.
  unfold stream_pass, line_at.
  destruct (window (BUFSIZE - 1) src pos) as [|c w] eqn:Ew.
  - rewrite next_pass_eof by reflexivity. eexists. split; [reflexivity|].
    now destruct (BUFSIZE - 1)%nat.
  - assert (Hne : stdin (set_stdin (c :: w) s) <> []) by discriminate.
    destruct (read_chunk (BUFSIZE - 1) (c :: w)) as [l r] eqn:Hread.
    rewrite (next_pass_read SVN_REV (set_stdin (c :: w) s) l r Hne Hread).
    cbn [fst].
    pose proof (read_chunk_app (BUFSIZE - 1) (c :: w)) as Happ.
    rewrite Hread in Happ. cbn [fst snd] in Happ.
    assert (Hlen : (length (c :: w) - length r = length l)%nat).
    { rewrite <- Happ, length_app. lia. }
    unfold is_control.
    destruct (classify l); eexists;
      (split; [cbn [pass_state stdin set_valid set_verbose fprintf_stdout
                 fflush_stdout after_fgets set_stdin set_buffer];
               rewrite Hlen; reflexivity | reflexivity]).
Qed.

Lemma reaches_after_next (src : stream) (pos k : nat) :
  reaches_after src pos (S k) ->
  reaches_after src (pos + length (line_at src pos))%nat k.
Proof.
  intros [Hrun Hend]. split.
  - intros i Hi. apply (Hrun (S i)). lia.
  - exact Hend.
Qed.

(** Without an end of the control lines no number of calls is enough. *)
Lemma stream_calls_endless (src : stream) (fuel : nat) : forall pos s,
  (forall i, is_control (line_at src (pos_after src pos i)) = true) ->
  stream_calls SVN_REV fuel src pos s = None.
Proof.
  induction fuel as [|fuel IH]; intros pos s Hall; [reflexivity|].
  cbn [stream_calls].
  destruct (stream_pass_line src pos s) as [r [Hp Hr]]. rewrite Hp.
  destruct r as [p s'|s1].
  - specialize (Hall 0%nat). cbn [pos_after] in Hall. congruence.
  - apply IH. intros i. apply (Hall (S i)).
Qed.

(** A call that returns has found the end of the control lines. *)
Lemma stream_calls_returns (src : stream) (fuel : nat) : forall pos s r,
  stream_calls SVN_REV fuel src pos s = Some r ->
  exists k, (k < fuel)%nat /\ reaches_after src pos k.
Proof.
  induction fuel as [|fuel IH]; intros pos s r H; [discriminate H|].
  cbn [stream_calls] in H.
  destruct (stream_pass_line src pos s) as [r0 [Hp Hr]]. rewrite Hp in H.
  destruct r0 as [p s'|s1].
  - exists 0%nat. split; [lia|]. split; [intros i Hi; lia | exact Hr].
  - destruct (IH _ _ _ H) as [k [Hk [Hrun Hend]]].
    exists (S k). split; [lia|]. split; [|exact Hend].
    intros [|i] Hi; [exact Hr | apply Hrun; lia].
Qed.

(** *** Streams that end *)

Lemma skipn_nth_error {A : Type} : forall (pos : nat) (l : list A) (a : A),
  nth_error l pos = Some a -> skipn pos l = a :: skipn (S pos) l.
Proof.
  induction pos as [|pos IH]; intros [|b l] a H; try discriminate H.
  - now injection H as ->.
  - cbn in H. change (skipn (S pos) (b :: l)) with (skipn pos l).
    now rewrite (IH l a H).
Qed.

Lemma window_stream_of (n : nat) (input : list ascii) : forall pos,
  window n (stream_of input) pos = firstn n (skipn pos input).
Proof.
  induction n as [|n IH]; intros pos; [reflexivity|].
  cbn [window]. unfold stream_of at 1.
  destruct (nth_error input pos) as [a|] eqn:E.
  - rewrite (skipn_nth_error pos input a E). cbn [firstn]. now rewrite IH.
  - apply nth_error_None in E. now rewrite skipn_all2.
Qed.

(** What [fgets] reads is decided by the characters it can look at. *)
Lemma read_chunk_firstn (n : nat) : forall input,
  fst (read_chunk n (firstn n input)) = fst (read_chunk n input) /\
  snd (read_chunk n input) = snd (read_chunk n (firstn n input)) ++ skipn n input.
Proof.
  induction n as [|n IH]; intros [|c rest]; try (now split).
  cbn [firstn read_chunk skipn].
  destruct (Ascii.eqb c LF).
  - cbn. split; [reflexivity|]. now rewrite firstn_skipn.
  - destruct (IH rest) as [H1 H2].
    destruct (read_chunk n (firstn n rest)) as [l1 r1].
    destruct (read_chunk n rest) as [l2 r2]. cbn in *.
    now subst.
Qed.

Lemma set_stdin_same (w : list ascii) (s t : state) :
  set_stdin [] s = set_stdin [] t -> set_stdin w s = set_stdin w t.
Proof.
  intros H. change (set_stdin w (set_stdin [] s) = set_stdin w (set_stdin [] t)).
  now rewrite H.
Qed.

(** A pass on the stream of a list is the pass on the list: the same return
    or recursion, the same state but for [stdin], and the position at what
    the list has left. *)
Lemma stream_pass_list (input : list ascii) (pos : nat) (s t : state) :
  skipn pos input = stdin t ->
  set_stdin [] s = set_stdin [] t ->
  exists s' pos',
    stream_pass SVN_REV (stream_of input) pos s =
      (match next_pass SVN_REV t with
       | Return p _ => Return p s'
       | Recurse _ => Recurse s'
       end, pos') /\
    set_stdin [] s' = set_stdin [] (pass_state (next_pass SVN_REV t)) /\
    skipn pos' input = stdin (pass_state (next_pass SVN_REV t)).
Proof.
  intros Hpos Hst. unfold stream_pass.
  rewrite window_stream_of, Hpos.
  rewrite (set_stdin_same _ s t Hst).
  destruct (stdin t) as [|c rest] eqn:Hin.
  - assert (Hw : firstn (BUFSIZE - 1) [] = (@nil ascii)) by now destruct (BUFSIZE - 1)%nat.
    rewrite Hw, !next_pass_eof by (exact Hin || reflexivity).
    eexists. eexists. split; [reflexivity|]. split; [reflexivity|].
    cbn. now rewrite Nat.add_0_r, Hpos, Hin.
  - assert (H1 : (1 <= BUFSIZE - 1)%nat) by (pose proof BUFSIZE_min; lia).
    destruct (read_chunk_firstn (BUFSIZE - 1) (c :: rest)) as [Hl Hr].
    pose proof (read_chunk_app (BUFSIZE - 1) (c :: rest)) as Happ.
    pose proof (read_chunk_app (BUFSIZE - 1) (firstn (BUFSIZE - 1) (c :: rest))) as Happ'.
    destruct (read_chunk (BUFSIZE - 1) (c :: rest)) as [l r] eqn:Hread.
    destruct (read_chunk (BUFSIZE - 1) (firstn (BUFSIZE - 1) (c :: rest)))
      as [l' r'] eqn:Hread'.
    cbn [fst snd] in *. subst l'.
    assert (Hne : stdin t <> []) by (rewrite Hin; discriminate).
    assert (Hne' : stdin (set_stdin (firstn (BUFSIZE - 1) (c :: rest)) t) <> []).
    { cbn [stdin set_stdin]. destruct (BUFSIZE - 1)%nat; [lia | discriminate]. }
    rewrite <- Hin in Hread.
    rewrite (next_pass_read SVN_REV t l r Hne Hread).
    rewrite (next_pass_read SVN_REV _ l r' Hne' Hread').
    assert (Hlen : (length (firstn (BUFSIZE - 1) (c :: rest)) - length r' = length l)%nat).
    { rewrite <- Happ', length_app. lia. }
    assert (Hskip : skipn (pos + length l) input = r).
    { rewrite Nat.add_comm, <- skipn_skipn, Hpos, <- Happ.
      rewrite skipn_app, skipn_all, Nat.sub_diag. reflexivity. }
    destruct (classify l); eexists; eexists;
      (split; [reflexivity|]); (split; [reflexivity|]);
      cbn [pass_state stdin set_valid set_verbose fprintf_stdout
             fflush_stdout after_fgets set_stdin set_buffer];
      rewrite Hlen; exact Hskip.
Qed.

(** On the stream of a list the calls return what fo_scheduler_next returns
    on the list. *)
Lemma stream_calls_list (input : list ascii) (n : nat) : forall pos s t,
  (length (stdin t) < n)%nat ->
  skipn pos input = stdin t ->
  set_stdin [] s = set_stdin [] t ->
  exists s' pos',
    stream_calls SVN_REV n (stream_of input) pos s =
      Some (fst (fo_scheduler_next SVN_REV t), s', pos') /\
    set_stdin [] s' = set_stdin [] (snd (fo_scheduler_next SVN_REV t)) /\
    skipn pos' input = stdin (snd (fo_scheduler_next SVN_REV t)).
Proof.
  induction n as [|n IH]; intros pos s t Hn Hpos Hst; [lia|].
  destruct (stream_pass_list input pos s t Hpos Hst) as (s1 & pos1 & Hp & Hs1 & Hpos1).
  cbn [stream_calls]. rewrite Hp, fo_scheduler_next_eq.
  destruct (next_pass SVN_REV t) as [p t'|t'] eqn:E; cbn [pass_state] in *.
  - exists s1, pos1. repeat split; assumption.
  - apply IH; try assumption.
    apply next_pass_recurse in E. lia.
Qed.

(** *** A stream without an end of the control lines *)

Lemma window_prefix : forall (l : list ascii) (n : nat) (src : stream) (pos : nat),
  (length l <= n)%nat ->
  (forall j, (j < length l)%nat -> src (pos + j)%nat = nth_error l j) ->
  exists r, window n src pos = l ++ r.
Proof.
  induction l as [|a l IH]; intros n src pos Hn Hsrc.
  - now exists (window n src pos).
  - destruct n as [|n]; [cbn in Hn; lia|]. cbn [window].
    pose proof (Hsrc 0%nat) as H0. rewrite Nat.add_0_r in H0.
    rewrite H0 by (cbn; lia). cbn [nth_error].
    destruct (IH n src (S pos)) as [r Hr].
    + cbn in Hn. lia.
    + intros j Hj. replace (S pos + j)%nat with (pos + S j)%nat by lia.
      apply (Hsrc (S j)). cbn. lia.
    + exists r. now rewrite Hr.
Qed.

Lemma line_at_inbound (src : stream) (pos : nat) (l : list ascii) :
  inbound_line l ->
  (forall j, (j < length l)%nat -> src (pos + j)%nat = nth_error l j) ->
  line_at src pos = l.
Proof.
  intros Hl Hsrc. unfold line_at.
  destruct (window_prefix l (BUFSIZE - 1) src pos) as [r Hr]; [|exact Hsrc|].
  - destruct Hl as (_ & _ & Hlen). lia.
  - now rewrite Hr, read_chunk_inbound_line.
Qed.

Lemma endless_END_line (a : nat) : line_at endless_END (4 * a) = line "END".
Proof.
  apply line_at_inbound; [apply inbound_lineb_true; reflexivity|].
  intros j Hj. unfold endless_END.
  replace (4 * a + j)%nat with (j + a * 4)%nat by lia.
  rewrite Nat.Div0.mod_add, Nat.mod_small; [reflexivity | exact Hj].
Qed.

Lemma endless_END_pos (i : nat) : forall a,
  pos_after endless_END (4 * a) i = (4 * (a + i))%nat.
Proof.
  induction i as [|i IH]; intros a; cbn [pos_after].
  - f_equal. lia.
  - rewrite endless_END_line.
    replace (4 * a + length (line "END"))%nat with (4 * (a + 1))%nat by (cbn; lia).
    rewrite IH. f_equal. lia.
Qed.

(** On the stream of END lines without end no number of calls makes
    fo_scheduler_next return. *)
Lemma endless_END_never_returns (fuel : nat) (s : state) :
  stream_calls SVN_REV fuel endless_END 0 s = None.
Proof.
  apply stream_calls_endless. intros i.
  change 0%nat with (4 * 0)%nat. rewrite endless_END_pos, endless_END_line.
  reflexivity.
Qed.

(** C9, as the code has it: on a stream that after [k] control lines (END,
    VERBOSE, VERSION) comes to a line that is none, or to its end, the
    recursion of fo_scheduler_next ends with call [k + 1] and no sooner, and
    the position it has reached is behind the [k] control lines and the one
    line after them; at the end of file that line is empty and the call has
    taken the control lines alone. *)
Theorem C9_stream_lines_consumed (src : stream) (pos k : nat) (s : state) :
  reaches_after src pos k ->
  exists p s',
    (forall fuel, (k < fuel)%nat ->
       stream_calls SVN_REV fuel src pos s = Some (p, s', pos_after src pos (S k))) /\
    (forall fuel, (fuel <= k)%nat -> stream_calls SVN_REV fuel src pos s = None) /\
    pos_after src pos (S k) =
      (pos_after src pos k + length (line_at src (pos_after src pos k)))%nat /\
    (line_at src (pos_after src pos k) = [] <-> src (pos_after src pos k) = None).
Proof.
  intros Hreach.
  assert (Hcalls : exists p s',
    (forall fuel, (k < fuel)%nat ->
       stream_calls SVN_REV fuel src pos s = Some (p, s', pos_after src pos (S k))) /\
    (forall fuel, (fuel <= k)%nat -> stream_calls SVN_REV fuel src pos s = None)).
  { revert pos s Hreach. induction k as [|k IH]; intros pos s Hreach.
    - destruct (stream_pass_line src pos s) as [r [Hp Hr]].
      destruct Hreach as [_ Hend]. cbn [pos_after] in Hend.
      destruct r as [p s'|s1]; [|congruence].
      exists p, s'. split.
      + intros [|fuel] Hf; [lia|]. cbn [stream_calls pos_after]. now rewrite Hp.
      + intros fuel Hf. now replace fuel with 0%nat by lia.
    - destruct (stream_pass_line src pos s) as [r [Hp Hr]].
      pose proof (reaches_after_next src pos k Hreach) as Hnext.
      destruct Hreach as [Hrun _].
      specialize (Hrun 0%nat). cbn [pos_after] in Hrun.
      destruct r as [p s'|s1]; [rewrite Hrun in Hr; [discriminate Hr | lia]|].
      destruct (IH _ s1 Hnext) as (p & s' & Hyes & Hno).
      exists p, s'. split.
      + intros [|fuel] Hf; [lia|]. cbn [stream_calls]. rewrite Hp.
        apply Hyes. lia.
      + intros [|fuel] Hf; [reflexivity|]. cbn [stream_calls]. rewrite Hp.
        apply Hno. lia. }
  destruct Hcalls as (p & s' & Hyes & Hno).
  exists p, s'. repeat split; try assumption.
  - apply pos_after_last.
  - apply line_at_nil.
  - apply line_at_nil.
Qed.

End OpenStream.

Section Lifecycle.

Variable SVN_REV : cmem.
Variable ALARM_SECS : Z.

(** ** Connecting *)

Lemma firstn_nth_error_length {A : Type} (l : list A) (n : nat) (x : A) :
  nth_error l n = Some x -> length (firstn n l) = n.
Proof.
  intros H. apply firstn_length_le.
  assert (n < length l)%nat by (apply nth_error_Some; congruence). lia.
Qed.

(** C5: called with --scheduler_start as the last argument,
    fo_scheduler_connect sends the line of SVN_REV and then the line OK, and
    leaves the argument count one lower and the array with the arguments
    before the last unchanged and a null pointer in the place of the last. *)
Theorem C5_connect_handshake (argc : Z) (argv : list (option cmem)) (arg : cmem) (s : state) :
  1 <= argc ->
  nth_error argv (Z.to_nat (argc - 1)) = Some (Some arg) ->
  cstr arg = lit "--scheduler_start" ->
  exists argv' s',
    fo_scheduler_connect SVN_REV ALARM_SECS argc argv s = Some (argc - 1, argv', s') /\
    stdout_sent s' = stdout_all s ++ (cstr SVN_REV ++ [LF]) ++ line "OK" /\
    stdout_buf s' = [] /\
    firstn (Z.to_nat (argc - 1)) argv' = firstn (Z.to_nat (argc - 1)) argv /\
    nth_error argv' (Z.to_nat (argc - 1)) = Some None /\
    length argv' = length argv /\
    found s' = 1.
Proof.
  intros Hargc Hnth Harg. unfold fo_scheduler_connect.
  assert (Hlt : (argc - 1 <? 0) = false) by (apply Z.ltb_ge; lia).
  rewrite Hlt, Hnth, (strcmp_cstr _ _ Harg).
  cbn [Z.eqb]. cbv beta iota zeta. cbn [found set_found set_verbose set_valid
    set_buffer set_items_processed fprintf_stdout Z.eqb].
  pose proof (firstn_nth_error_length _ _ _ Hnth) as Hlen.
  set (n := Z.to_nat (argc - 1)) in *.
  eexists. eexists. split; [reflexivity|].
  split; [unfold stdout_all; cbn; now rewrite <- !app_assoc|].
  split; [reflexivity|].
  split; [|split; [|split; [|reflexivity]]].
  - rewrite firstn_app, Hlen, Nat.sub_diag. cbn [firstn].
    rewrite app_nil_r, firstn_firstn. now rewrite Nat.min_id.
  - rewrite nth_error_app2 by lia. now rewrite Hlen, Nat.sub_diag.
  - rewrite <- (firstn_skipn n argv) at 3.
    rewrite !length_app. cbn [length]. rewrite !length_skipn.
    assert (n < length argv)%nat by (apply nth_error_Some; congruence). lia.
Qed.

(** C10: whenever the last argument can be inspected, fo_scheduler_connect
    returns with items_processed, verbose and valid at 0 and the buffer
    filled with NUL, whatever the state before and whether or not the
    last argument is --scheduler_start. *)
Theorem C10_connect_resets (argc : Z) (argv : list (option cmem)) (arg : cmem) (s : state) :
  1 <= argc ->
  nth_error argv (Z.to_nat (argc - 1)) = Some (Some arg) ->
  exists argc' argv' s',
    fo_scheduler_connect SVN_REV ALARM_SECS argc argv s = Some (argc', argv', s') /\
    items_processed s' = 0 /\
    verbose s' = 0 /\
    buffer s' = repeat NUL BUFSIZE /\
    cstr (buffer s') = [] /\
    valid s' = 0 /\
    fo_scheduler_current s' = NULL /\
    found s' = (if strcmp arg (lit "--scheduler_start") =? 0 then 1 else 0).
Proof.
  intros Hargc Hnth. unfold fo_scheduler_connect.
  assert (Hlt : (argc - 1 <? 0) = false) by (apply Z.ltb_ge; lia).
  rewrite Hlt, Hnth.
  destruct (strcmp arg (lit "--scheduler_start") =? 0);
    eexists; eexists; eexists; (split; [reflexivity|]); repeat split.
Qed.

(** ** Disconnecting *)

(** C7: fo_scheduler_disconnect always ends the process with status 0, and
    what it adds to stdout is the line BYE when found is set and nothing
    otherwise. *)
Theorem C7_disconnect (s : state) :
  exists s',
    fo_scheduler_disconnect s = Exits 0 s' /\
    stdout_sent s' = stdout_all s ++ (if found s =? 0 then [] else line "BYE") /\
    stdout_buf s' = [].
Proof.
  unfold fo_scheduler_disconnect, exit, stdout_all.
  eexists. split; [reflexivity|].
  destruct (found s =? 0); cbn; rewrite ?app_nil_r, <- ?app_assoc; split; reflexivity.
Qed.

(** ** The heartbeat *)

(** C6: fo_scheduler_heart adds its argument to items_processed, and
    fo_heartbeat sends the line HEART: with the sum and leaves the counter
    as it is, so a second heartbeat sends the same line. *)
Theorem C6_heartbeat_cumulative (s : state) (n m : Z) :
  in_int (items_processed s + n) ->
  in_int (items_processed s + n + m) ->
  let total := items_processed s + n + m in
  let s1 := fo_scheduler_heart n s in
  let s2 := fo_scheduler_heart m s1 in
  let h1 := fo_heartbeat ALARM_SECS s2 in
  let h2 := fo_heartbeat ALARM_SECS h1 in
  items_processed s1 = items_processed s + n /\
  items_processed s2 = total /\
  stdout_sent h1 = stdout_all s ++ lit "HEART: " ++ fmt_d total ++ [LF] /\
  items_processed h1 = total /\
  stdout_sent h2 = stdout_sent h1 ++ lit "HEART: " ++ fmt_d total ++ [LF] /\
  items_processed h2 = total.
Proof.
  intros Hn Hm total s1 s2 h1 h2.
  assert (E1 : items_processed s1 = items_processed s + n)
    by (apply to_int_in_range, Hn).
  assert (E2 : items_processed s2 = total).
  { unfold s2, fo_scheduler_heart. cbn [items_processed set_items_processed].
    fold (fo_scheduler_heart n s). fold s1. rewrite E1.
    now apply to_int_in_range. }
  split; [exact E1|]. split; [exact E2|].
  assert (E3 : items_processed h1 = total) by exact E2.
  unfold h2, h1, fo_heartbeat, stdout_all.
  cbn [stdout_sent stdout_buf items_processed alarm fflush_stdout fprintf_stdout].
  fold s1. fold s2. rewrite E2, !app_nil_l, <- !app_assoc.
  repeat split.
Qed.

End Lifecycle.

(** * Instances *)

Lemma C1_data_line_witness :
  let l := line "foo.txt" in
  let s := initial (l ++ line "CLOSE") in
  inbound_line l /\
  exists s',
    fo_scheduler_next SVN_REV_fallback s = (BUFFER, s') /\
    text_at BUFFER s' = Some l /\
    fo_scheduler_current s' = BUFFER /\
    text_at (fo_scheduler_current s') s' = Some l /\
    stdin s' = line "CLOSE".
Proof.
  assert (L : inbound_line (line "foo.txt")) by (apply inbound_lineb_true; reflexivity).
  split; [exact L|].
  apply (C1_data_line_returned SVN_REV_fallback
           (initial (line "foo.txt" ++ line "CLOSE")) (line "foo.txt") (line "CLOSE"));
    [exact L | reflexivity ..].
Defined.

Lemma C2_close_witness :
  let s := initial (line "CLOSE") in
  exists s',
    fo_scheduler_next SVN_REV_fallback s = (NULL, s') /\
    fo_scheduler_current s' = NULL /\
    valid s' = 0 /\
    stdout_all s' = stdout_all s /\
    items_processed s' = items_processed s /\
    verbose s' = verbose s /\
    found s' = found s /\
    sigalrm s' = sigalrm s /\
    alarm_in s' = alarm_in s.
Proof.
  apply (C2_close_or_eof SVN_REV_fallback (initial (line "CLOSE"))).
  right. exists [LF]. reflexivity.
Defined.

(** With END and baz.txt as input the text returned is not baz.txt: the
    newline is part of it. *)
Lemma C3_counterexample :
  let r := fo_scheduler_next SVN_REV_fallback (initial (line "END" ++ line "baz.txt")) in
  ~ (stdout_sent (snd r) = line "OK" /\ text_at (fst r) (snd r) = Some (lit "baz.txt")).
Proof.
  intros r [_ H]. vm_compute in H. discriminate H.
Qed.

Lemma C3_end_witness :
  let s := initial (line "END" ++ line "baz.txt" ++ []) in
  exists s',
    fo_scheduler_next SVN_REV_fallback s = (BUFFER, s') /\
    text_at BUFFER s' = Some (line "baz.txt") /\
    stdout_sent s' = stdout_all s ++ line "OK" /\
    stdout_buf s' = [] /\
    stdin s' = [].
Proof.
  apply (C3_end_acknowledged SVN_REV_fallback
           (initial (line "END" ++ line "baz.txt" ++ [])) []).
  reflexivity.
Defined.

(** With VERBOSE 5 and bar.txt as input the text returned is not bar.txt:
    the newline is part of it. *)
Lemma C4_counterexample :
  let r := fo_scheduler_next SVN_REV_fallback (initial (line "VERBOSE 5" ++ line "bar.txt")) in
  ~ (verbose (snd r) = 5 /\ text_at (fst r) (snd r) = Some (lit "bar.txt")).
Proof.
  intros r [_ H]. vm_compute in H. discriminate H.
Qed.

Lemma C4_verbose_witness :
  let s := initial (line "VERBOSE 5" ++ line "bar.txt" ++ []) in
  (exists s1,
     next_pass SVN_REV_fallback s = Recurse s1 /\
     fo_scheduler_next SVN_REV_fallback s = fo_scheduler_next SVN_REV_fallback s1 /\
     verbose s1 = atoi (line "5") /\
     (numeric (line "5") = false -> verbose s1 = 0) /\
     stdin s1 = line "bar.txt" ++ []) /\
  (exists s',
     fo_scheduler_next SVN_REV_fallback s = (BUFFER, s') /\
     text_at BUFFER s' = Some (line "bar.txt") /\
     verbose s' = 5 /\
     stdin s' = []).
Proof.
  split.
  - apply (proj1 (C4_verbose_line SVN_REV_fallback)
             (initial (line "VERBOSE 5" ++ line "bar.txt" ++ []))
             " "%char (line "5") (line "bar.txt" ++ [])).
    + apply inbound_lineb_true. reflexivity.
    + reflexivity.
  - apply (proj2 (C4_verbose_line SVN_REV_fallback)
             (initial (line "VERBOSE 5" ++ line "bar.txt" ++ [])) []).
    reflexivity.
Defined.

Lemma C5_connect_witness :
  let argv := [Some (lit "agent"); Some (lit "--scheduler_start"); None] in
  let s := initial [] in
  1 <= 2 /\
  exists argv' s',
    fo_scheduler_connect SVN_REV_fallback 30 2 argv s = Some (2 - 1, argv', s') /\
    stdout_sent s' = stdout_all s ++ (cstr SVN_REV_fallback ++ [LF]) ++ line "OK" /\
    stdout_buf s' = [] /\
    firstn (Z.to_nat (2 - 1)) argv' = firstn (Z.to_nat (2 - 1)) argv /\
    nth_error argv' (Z.to_nat (2 - 1)) = Some None /\
    length argv' = length argv /\
    found s' = 1.
Proof.
  split; [lia|].
  apply (C5_connect_handshake SVN_REV_fallback 30 2
           [Some (lit "agent"); Some (lit "--scheduler_start"); None]
           (lit "--scheduler_start") (initial []));
    [lia | reflexivity | reflexivity].
Defined.

Lemma C6_heartbeat_witness :
  let s2 := fo_scheduler_heart 4 (fo_scheduler_heart 3 (initial [])) in
  let h1 := fo_heartbeat 30 s2 in
  let h2 := fo_heartbeat 30 h1 in
  stdout_sent h1 = line "HEART: 7" /\
  stdout_sent h2 = line "HEART: 7" ++ line "HEART: 7" /\
  items_processed h2 = 7.
Proof.
  destruct (C6_heartbeat_cumulative 30 (initial []) 3 4) as [_ [_ [H1 [_ [H2 H3]]]]].
  - unfold in_int, INT_MIN, INT_MAX. cbn. lia.
  - unfold in_int, INT_MIN, INT_MAX. cbn. lia.
  - cbv zeta. rewrite H2, H1, H3. repeat split.
Defined.

(** With the one line END as input the call takes that line and finds the
    end of file: one line, not the run of one and a further line. *)
Lemma C9_counterexample :
  let s := initial (line "END") in
  ~ (lines_consumed SVN_REV_fallback s =
       (length (take_while is_control (lines (stdin s))) + 1)%nat).
Proof.
  intros s H. vm_compute in H. discriminate H.
Qed.

Lemma C9_stream_witness :
  let src := stream_of (line "END" ++ line "VERBOSE 2" ++ line "foo.txt" ++ line "more") in
  let s := initial [] in
  reaches_after src 0 2 /\
  exists p s',
    (forall fuel, (2 < fuel)%nat ->
       stream_calls SVN_REV_fallback fuel src 0 s = Some (p, s', pos_after src 0 3)) /\
    (forall fuel, (fuel <= 2)%nat -> stream_calls SVN_REV_fallback fuel src 0 s = None) /\
    pos_after src 0 3 = (pos_after src 0 2 + length (line_at src (pos_after src 0 2)))%nat /\
    (line_at src (pos_after src 0 2) = [] <-> src (pos_after src 0 2) = None).
Proof.
  assert (H : reaches_after
                (stream_of (line "END" ++ line "VERBOSE 2" ++ line "foo.txt" ++ line "more"))
                0 2).
  { split.
    - intros i Hi. destruct i as [|[|i]]; [vm_compute; reflexivity | vm_compute; reflexivity | lia].
    - vm_compute. reflexivity. }
  split; [exact H|].
  apply (C9_stream_lines_consumed SVN_REV_fallback
           (stream_of (line "END" ++ line "VERBOSE 2" ++ line "foo.txt" ++ line "more"))
           0 2 (initial [])).
  exact H.
Defined.

Lemma C10_connect_witness :
  let argv := [Some (lit "agent"); None] in
  let s := fo_scheduler_heart 3 (snd (fo_scheduler_next SVN_REV_fallback
             (initial (line "VERBOSE 2" ++ line "foo.txt")))) in
  (items_processed s = 3 /\ verbose s = 2 /\ valid s = 1) /\
  exists argc' argv' s',
    fo_scheduler_connect SVN_REV_fallback 30 1 argv s = Some (argc', argv', s') /\
    items_processed s' = 0 /\
    verbose s' = 0 /\
    buffer s' = repeat NUL BUFSIZE /\
    cstr (buffer s') = [] /\
    valid s' = 0 /\
    fo_scheduler_current s' = NULL /\
    found s' = (if strcmp (lit "agent") (lit "--scheduler_start") =? 0 then 1 else 0).
Proof.
  split; [repeat split|].
  apply (C10_connect_resets SVN_REV_fallback 30 1 [Some (lit "agent"); None] (lit "agent"));
    [lia | reflexivity].
Defined.

(** ** A line without its newline *)

(** A last line VERBOSE that the end of file cuts short fills the buffer up
    to index 7, so [&buffer[8]] is behind the terminating NUL and atoi reads
    what an earlier line left there: here the 9 of 123456789. *)
Example verbose_cut_short_reads_old_line :
  let s1 := snd (fo_scheduler_next SVN_REV_fallback
                   (initial (line "123456789" ++ lit "VERBOSE"))) in
  stdin s1 = lit "VERBOSE" /\
  verbose s1 = 0 /\
  verbose (snd (fo_scheduler_next SVN_REV_fallback s1)) = 9.
Proof. repeat split. Qed.

(** * Further properties of the reader *)

Lemma read_chunk_length (n : nat) : forall input,
  (length (fst (read_chunk n input)) <= n)%nat.
Proof.
  induction n as [|n IH]; intros [|c rest]; cbn; try lia.
  destruct (Ascii.eqb c LF); [cbn; lia|].
  specialize (IH rest). destruct (read_chunk n rest). cbn in *. lia.
Qed.

(** Without a newline, [fgets] stops when the buffer is full or the input
    ends. *)
Lemma read_chunk_full : forall l n rest,
  ~ In LF l -> length l = n -> read_chunk n (l ++ rest) = (l, rest).
Proof.
  induction l as [|a l IH]; intros n rest Hlf Hn.
  - cbn in Hn. subst n. now destruct rest.
  - destruct n as [|n]; [discriminate Hn|]. cbn.
    destruct (Ascii.eqb a LF) eqn:E.
    + apply Ascii.eqb_eq in E. subst a. exfalso. apply Hlf. now left.
    + rewrite IH; [reflexivity | | now injection Hn].
      intros H. apply Hlf. now right.
Qed.

Lemma read_chunk_all : forall l n,
  ~ In LF l -> (length l <= n)%nat -> read_chunk n l = (l, []).
Proof.
  induction l as [|a l IH]; intros n Hlf Hn.
  - now destruct n.
  - destruct n as [|n]; [cbn in Hn; lia|]. cbn.
    destruct (Ascii.eqb a LF) eqn:E.
    + apply Ascii.eqb_eq in E. subst a. exfalso. apply Hlf. now left.
    + rewrite IH; [reflexivity | | cbn in Hn; lia].
      intros H. apply Hlf. now right.
Qed.

Lemma cstr_nul_tail : forall l r, cstr (l ++ NUL :: r) = cstr l.
Proof.
  induction l as [|c l IH]; intros r; cbn; [reflexivity|].
  destruct (Ascii.eqb c NUL); [reflexivity | now rewrite IH].
Qed.

Section Reader.

Variable SVN_REV : cmem.

(** The two ways a pass goes: end of file, or a line [l] with [r] left. *)
Lemma next_pass_cases (s : state) :
  (stdin s = [] /\
   next_pass SVN_REV s = Return NULL (set_valid 0 (fflush_stdout s))) \/
  (exists l r,
     stdin s <> [] /\
     read_chunk (BUFSIZE - 1) (stdin s) = (l, r) /\
     lines (stdin s) = l :: lines r /\
     next_pass SVN_REV s =
       let s1 := after_fgets l r (fflush_stdout s) in
       match classify l with
       | Close => Return NULL (set_valid 0 s1)
       | End => Recurse (fflush_stdout (fprintf_stdout (line "OK") s1))
       | Verbose => Recurse (set_valid 0 (set_verbose (atoi (skipn 8 (buffer s1))) s1))
       | Version => Recurse (set_valid 0 (fprintf_stdout (cstr SVN_REV ++ [LF]) s1))
       | Data => Return BUFFER (set_valid 1 s1)
       end).
Proof.
  destruct (stdin s) as [|c rest] eqn:Hin.
  - left. split; [reflexivity | now apply next_pass_eof].
  - right. assert (Hne : stdin s <> []) by (rewrite Hin; discriminate).
    destruct (read_chunk (BUFSIZE - 1) (stdin s)) as [l r] eqn:Hread.
    exists l, r. rewrite <- Hin. repeat split; try assumption.
    + now apply lines_cons.
    + now apply next_pass_read.
Qed.

(** Induction along the recursive calls of fo_scheduler_next. *)
Lemma fo_scheduler_next_rec (P : state -> charp * state -> Prop) :
  (forall s p s', next_pass SVN_REV s = Return p s' -> P s (p, s')) ->
  (forall s s1, next_pass SVN_REV s = Recurse s1 ->
     P s1 (fo_scheduler_next SVN_REV s1) -> P s (fo_scheduler_next SVN_REV s1)) ->
  forall s, P s (fo_scheduler_next SVN_REV s).
Proof.
  intros Hret Hrec.
  assert (H : forall n s, (length (stdin s) < n)%nat -> P s (fo_scheduler_next SVN_REV s)).
  { induction n as [|n IH]; intros s Hn; [lia|].
    rewrite fo_scheduler_next_eq.
    destruct (next_pass SVN_REV s) as [p s'|s1] eqn:E.
    - now apply Hret.
    - apply Hrec; [exact E|]. apply IH. apply next_pass_recurse in E. lia. }
  intros s. apply (H (S (length (stdin s)))). lia.
Qed.

End Reader.

Section ReaderResults.

Variable SVN_REV : cmem.

(** ** What a call returns and leaves behind *)

(** X1: what fo_scheduler_current answers right after a call of
    fo_scheduler_next is the pointer that call returned. *)
Theorem current_after_next (s : state) :
  fo_scheduler_current (snd (fo_scheduler_next SVN_REV s)) =
    fst (fo_scheduler_next SVN_REV s).
Proof.
  unfold fo_scheduler_current.
  rewrite (fo_scheduler_next_valid SVN_REV (S (length (stdin s)))) by lia.
  now destruct (fst (fo_scheduler_next SVN_REV s)).
Qed.

(** X2: when fo_scheduler_next returns, nothing is left in the buffer of
    stdout, and what has been sent is what was written before the call
    followed by the responses to the control lines the call passed, in
    their order: OK for each END, the revision for each VERSION. *)
Theorem next_output (s : state) :
  let s' := snd (fo_scheduler_next SVN_REV s) in
  stdout_buf s' = [] /\
  stdout_sent s' =
    stdout_all s ++
    concat (map (response SVN_REV) (take_while is_control (lines (stdin s)))).
Proof.
  apply (fo_scheduler_next_rec SVN_REV (fun s r =>
    stdout_buf (snd r) = [] /\
    stdout_sent (snd r) =
      stdout_all s ++
      concat (map (response SVN_REV) (take_while is_control (lines (stdin s)))))).
  - intros s0 p s' H.
    destruct (next_pass_cases SVN_REV s0)
      as [[Hin Hp] | (l & r & Hne & Hread & Hlines & Hp)]; rewrite Hp in H.
    + injection H as <- <-. rewrite Hin. unfold stdout_all. cbn.
      now rewrite app_nil_r.
    + rewrite Hlines. cbn [take_while]. unfold is_control.
      destruct (classify l); try discriminate H; injection H as <- <-;
        unfold stdout_all; cbn; now rewrite app_nil_r.
  - intros s0 s1 H IH.
    destruct (next_pass_cases SVN_REV s0)
      as [[Hin Hp] | (l & r & Hne & Hread & Hlines & Hp)]; rewrite Hp in H;
      [discriminate H|].
    rewrite Hlines. cbn [take_while]. unfold is_control.
    destruct (classify l) eqn:Ec; try discriminate H; injection H as <-;
      destruct IH as [IHb IHs]; (split; [exact IHb|]); rewrite IHs;
      cbn [map concat]; unfold response at 2; rewrite Ec;
      unfold stdout_all;
      cbn [stdout_sent stdout_buf stdin fflush_stdout
        fprintf_stdout set_valid set_verbose after_fgets set_stdin set_buffer];
      rewrite ?app_nil_r, ?app_nil_l, <- ?app_assoc; reflexivity.
Qed.

(** X3: the result of a call is decided by the first line after the
    leading control lines: a data line is returned, as the C string the
    buffer then holds; a CLOSE line, and the end of the input, give NULL. *)
Theorem next_result (s : state) :
  let r := fo_scheduler_next SVN_REV s in
  match drop_while is_control (lines (stdin s)) with
  | l :: _ =>
      match classify l with
      | Data => fst r = BUFFER /\ text_at BUFFER (snd r) = Some (cstr l)
      | _ => fst r = NULL
      end
  | [] => fst r = NULL
  end.
Proof.
  apply (fo_scheduler_next_rec SVN_REV (fun s r =>
    match drop_while is_control (lines (stdin s)) with
    | l :: _ =>
        match classify l with
        | Data => fst r = BUFFER /\ text_at BUFFER (snd r) = Some (cstr l)
        | _ => fst r = NULL
        end
    | [] => fst r = NULL
    end)).
  - intros s0 p s' H.
    destruct (next_pass_cases SVN_REV s0)
      as [[Hin Hp] | (l & r & Hne & Hread & Hlines & Hp)]; rewrite Hp in H.
    + injection H as <- <-. now rewrite Hin.
    + rewrite Hlines. cbn [drop_while]. unfold is_control.
      destruct (classify l) eqn:Ec; try discriminate H; injection H as <- <-;
        rewrite ?Ec; try reflexivity.
      split; [reflexivity|]. cbn. now rewrite cstr_nul_tail.
  - intros s0 s1 H IH.
    destruct (next_pass_cases SVN_REV s0)
      as [[Hin Hp] | (l & r & Hne & Hread & Hlines & Hp)]; rewrite Hp in H;
      [discriminate H|].
    rewrite Hlines. cbn [drop_while]. unfold is_control.
    destruct (classify l); try discriminate H; injection H as <-; exact IH.
Qed.

(** X4: fo_scheduler_next leaves the counter, the flag found, the handler
    of SIGALRM and the pending alarm as they were. *)
Theorem next_keeps_lifecycle (s : state) :
  let s' := snd (fo_scheduler_next SVN_REV s) in
  items_processed s' = items_processed s /\
  found s' = found s /\
  sigalrm s' = sigalrm s /\
  alarm_in s' = alarm_in s.
Proof.
  apply (fo_scheduler_next_rec SVN_REV (fun s r =>
    items_processed (snd r) = items_processed s /\
    found (snd r) = found s /\
    sigalrm (snd r) = sigalrm s /\
    alarm_in (snd r) = alarm_in s)).
  - intros s0 p s' H.
    destruct (next_pass_cases SVN_REV s0)
      as [[Hin Hp] | (l & r & Hne & Hread & Hlines & Hp)]; rewrite Hp in H.
    + injection H as <- <-. repeat split.
    + destruct (classify l); try discriminate H; injection H as <- <-; repeat split.
  - intros s0 s1 H (I1 & I2 & I3 & I4).
    rewrite I1, I2, I3, I4.
    destruct (next_pass_cases SVN_REV s0)
      as [[Hin Hp] | (l & r & Hne & Hread & Hlines & Hp)]; rewrite Hp in H;
      [discriminate H|].
    destruct (classify l); try discriminate H; injection H as <-; repeat split.
Qed.

(** X5: the reads stay inside the array: a buffer of 2048 bytes is one of
    2048 bytes after the call, and a text the call returns has at most 2047
    characters. *)
Theorem next_buffer_bounds (s : state) :
  length (buffer s) = BUFSIZE ->
  let r := fo_scheduler_next SVN_REV s in
  length (buffer (snd r)) = BUFSIZE /\
  match text_at (fst r) (snd r) with
  | Some text => (length text <= BUFSIZE - 1)%nat
  | None => fst r = NULL
  end.
Proof.
  assert (Hfit : forall (b l : list ascii),
            length b = BUFSIZE -> (length l <= BUFSIZE - 1)%nat ->
            length (l ++ NUL :: skipn (S (length l)) b) = BUFSIZE).
  { intros b l Hb Hl. rewrite length_app. cbn [length]. rewrite length_skipn, Hb.
    pose proof BUFSIZE_min. lia. }
  revert s.
  apply (fo_scheduler_next_rec SVN_REV (fun s r =>
    length (buffer s) = BUFSIZE ->
    length (buffer (snd r)) = BUFSIZE /\
    match text_at (fst r) (snd r) with
    | Some text => (length text <= BUFSIZE - 1)%nat
    | None => fst r = NULL
    end)).
  - intros s0 p s' H Hb.
    destruct (next_pass_cases SVN_REV s0)
      as [[Hin Hp] | (l & r & Hne & Hread & Hlines & Hp)]; rewrite Hp in H.
    + injection H as <- <-. split; [exact Hb | reflexivity].
    + pose proof (read_chunk_length (BUFSIZE - 1) (stdin s0)) as Hl.
      rewrite Hread in Hl. cbn [fst] in Hl.
      destruct (classify l); try discriminate H; injection H as <- <-;
        (split; [now apply Hfit | try reflexivity]).
      cbn [fst snd text_at buffer set_valid after_fgets set_stdin set_buffer].
      rewrite cstr_nul_tail. pose proof (cstr_length l). lia.
  - intros s0 s1 H IH Hb. apply IH.
    destruct (next_pass_cases SVN_REV s0)
      as [[Hin Hp] | (l & r & Hne & Hread & Hlines & Hp)]; rewrite Hp in H;
      [discriminate H|].
    pose proof (read_chunk_length (BUFSIZE - 1) (stdin s0)) as Hl.
    rewrite Hread in Hl. cbn [fst] in Hl.
    destruct (classify l); try discriminate H; injection H as <-; now apply Hfit.
Qed.

End ReaderResults.

(** ** Prefixes *)

Lemma starts_with_app : forall p l,
  starts_with p l = true -> exists r, l = p ++ r.
Proof.
  induction p as [|a p IH]; intros l H.
  - now exists l.
  - destruct l as [|b l]; [discriminate H|]. cbn in H.
    apply andb_prop in H as [Hab H]. apply Ascii.eqb_eq in Hab. subst b.
    destruct (IH l H) as [r ->]. now exists r.
Qed.

(** Two of the four prefixes never match the same line. *)
Ltac prefix_clash H1 H2 :=
  let r := fresh "r" in
  let E := fresh "E" in
  apply starts_with_app in H1; destruct H1 as [r E]; rewrite E in H2;
  discriminate H2.

(** X6: the four prefixes exclude each other, so each class is decided by
    its own prefix, whatever the order of the tests. *)
Theorem classify_by_prefix (l : cmem) :
  (classify l = Close <-> starts_with (lit "CLOSE") l = true) /\
  (classify l = End <-> starts_with (lit "END") l = true) /\
  (classify l = Verbose <-> starts_with (lit "VERBOSE") l = true) /\
  (classify l = Version <-> starts_with (lit "VERSION") l = true).
Proof.
  rewrite classify_starts_with.
  destruct (starts_with (lit "CLOSE") l) eqn:Hc;
  destruct (starts_with (lit "END") l) eqn:He;
  destruct (starts_with (lit "VERBOSE") l) eqn:Hvb;
  destruct (starts_with (lit "VERSION") l) eqn:Hvs;
  try (exfalso; prefix_clash Hc He);
  try (exfalso; prefix_clash Hc Hvb);
  try (exfalso; prefix_clash Hc Hvs);
  try (exfalso; prefix_clash He Hvb);
  try (exfalso; prefix_clash He Hvs);
  try (exfalso; prefix_clash Hvb Hvs);
  repeat split; intros H; try reflexivity; discriminate H.
Qed.

Lemma classify_end (l : cmem) :
  starts_with (lit "END") l = true -> classify l = End.
Proof.
  intros H. destruct (starts_with_app _ _ H) as [r ->]. reflexivity.
Qed.

Lemma classify_close (l : cmem) :
  starts_with (lit "CLOSE") l = true -> classify l = Close.
Proof.
  intros H. destruct (starts_with_app _ _ H) as [r ->]. reflexivity.
Qed.

Lemma classify_version (l : cmem) :
  starts_with (lit "VERSION") l = true -> classify l = Version.
Proof.
  intros H. destruct (starts_with_app _ _ H) as [r ->]. reflexivity.
Qed.

Lemma classify_data (l : cmem) :
  starts_with (lit "CLOSE") l = false ->
  starts_with (lit "END") l = false ->
  starts_with (lit "VERBOSE") l = false ->
  starts_with (lit "VERSION") l = false ->
  classify l = Data.
Proof.
  intros Hc He Hvb Hvs. now rewrite classify_starts_with, Hc, He, Hvb, Hvs.
Qed.

Section LineShapes.

Variable SVN_REV : cmem.

(** ** Lines of other shapes *)

(** X7: any inbound line that begins with END, whatever follows the three
    letters, is answered with one OK line, flushed, and is not returned: the
    call goes on with the next line, with valid and verbose as they were. *)
Theorem end_prefix_acknowledged (s : state) (l rest : list ascii) :
  inbound_line l ->
  starts_with (lit "END") l = true ->
  stdin s = l ++ rest ->
  exists s1,
    next_pass SVN_REV s = Recurse s1 /\
    fo_scheduler_next SVN_REV s = fo_scheduler_next SVN_REV s1 /\
    stdout_sent s1 = stdout_all s ++ line "OK" /\
    stdout_buf s1 = [] /\
    valid s1 = valid s /\
    verbose s1 = verbose s /\
    stdin s1 = rest.
Proof.
  intros Hl He Hin.
  assert (Hp := next_pass_line SVN_REV s l rest Hl Hin).
  rewrite (classify_end l He) in Hp. cbv zeta in Hp.
  eexists. split; [exact Hp|].
  split; [now rewrite fo_scheduler_next_eq, Hp|].
  unfold stdout_all. cbn. rewrite ?app_nil_r. repeat split.
Qed.

(** X8: any inbound line that begins with VERSION is answered with the
    line of SVN_REV, which the pass leaves in the buffer of stdout; the
    flag valid is cleared and the call goes on with the next line. *)
Theorem version_prefix_answered (s : state) (l rest : list ascii) :
  inbound_line l ->
  starts_with (lit "VERSION") l = true ->
  stdin s = l ++ rest ->
  exists s1,
    next_pass SVN_REV s = Recurse s1 /\
    fo_scheduler_next SVN_REV s = fo_scheduler_next SVN_REV s1 /\
    stdout_sent s1 = stdout_all s /\
    stdout_buf s1 = cstr SVN_REV ++ [LF] /\
    valid s1 = 0 /\
    verbose s1 = verbose s /\
    stdin s1 = rest.
Proof.
  intros Hl Hv Hin.
  assert (Hp := next_pass_line SVN_REV s l rest Hl Hin).
  rewrite (classify_version l Hv) in Hp. cbv zeta in Hp.
  eexists. split; [exact Hp|].
  split; [now rewrite fo_scheduler_next_eq, Hp|].
  unfold stdout_all. cbn. repeat split.
Qed.

(** X9: of a data line longer than the buffer, a call returns the first
    2047 characters and leaves the rest of the line unread, for the next
    call to take as a line of its own. *)
Theorem long_line_split (s : state) (chunk rest : list ascii) :
  length chunk = (BUFSIZE - 1)%nat ->
  ~ In LF chunk ->
  ~ In NUL chunk ->
  starts_with (lit "CLOSE") chunk = false ->
  starts_with (lit "END") chunk = false ->
  starts_with (lit "VERBOSE") chunk = false ->
  starts_with (lit "VERSION") chunk = false ->
  stdin s = chunk ++ rest ->
  exists s',
    fo_scheduler_next SVN_REV s = (BUFFER, s') /\
    text_at BUFFER s' = Some chunk /\
    stdin s' = rest.
Proof.
  intros Hlen Hlf Hnul Hc He Hvb Hvs Hin.
  assert (Hne : stdin s <> []).
  { rewrite Hin. destruct chunk; [|discriminate].
    pose proof BUFSIZE_min. cbn in Hlen. lia. }
  assert (Hread : read_chunk (BUFSIZE - 1) (stdin s) = (chunk, rest)).
  { rewrite Hin. now apply read_chunk_full. }
  rewrite fo_scheduler_next_eq, (next_pass_read SVN_REV s chunk rest Hne Hread).
  rewrite (classify_data chunk Hc He Hvb Hvs).
  eexists. split; [reflexivity|]. cbn.
  now rewrite cstr_app_nul.
Qed.

(** X10: a last data line that the end of file cuts short of its newline is
    returned as it is, and the call after it returns NULL. *)
Theorem last_line_without_newline (s : state) (l : list ascii) :
  l <> [] ->
  ~ In LF l ->
  ~ In NUL l ->
  (length l < BUFSIZE)%nat ->
  starts_with (lit "CLOSE") l = false ->
  starts_with (lit "END") l = false ->
  starts_with (lit "VERBOSE") l = false ->
  starts_with (lit "VERSION") l = false ->
  stdin s = l ->
  exists s',
    fo_scheduler_next SVN_REV s = (BUFFER, s') /\
    text_at BUFFER s' = Some l /\
    stdin s' = [] /\
    fst (fo_scheduler_next SVN_REV s') = NULL.
Proof.
  intros Hne Hlf Hnul Hlen Hc He Hvb Hvs Hin.
  assert (Hne' : stdin s <> []) by now rewrite Hin.
  assert (Hread : read_chunk (BUFSIZE - 1) (stdin s) = (l, [])).
  { rewrite Hin. apply read_chunk_all; [exact Hlf | lia]. }
  rewrite fo_scheduler_next_eq, (next_pass_read SVN_REV s l [] Hne' Hread).
  rewrite (classify_data l Hc He Hvb Hvs).
  eexists. split; [reflexivity|]. cbn [text_at buffer stdin set_valid after_fgets
    set_stdin set_buffer].
  rewrite cstr_app_nul by exact Hnul.
  split; [reflexivity|]. split; [reflexivity|].
  rewrite fo_scheduler_next_eq, next_pass_eof; reflexivity.
Qed.

(** X11: a NUL inside a data line ends the text the caller gets: the whole
    line is taken from stdin, and the returned string is the part before
    the NUL. *)
Theorem nul_cuts_text (s : state) (a b rest : list ascii) :
  ~ In NUL a ->
  ~ In LF a ->
  ~ In LF b ->
  (length a + length b + 2 < BUFSIZE)%nat ->
  starts_with (lit "CLOSE") a = false ->
  starts_with (lit "END") a = false ->
  starts_with (lit "VERBOSE") a = false ->
  starts_with (lit "VERSION") a = false ->
  stdin s = a ++ NUL :: b ++ LF :: rest ->
  exists s',
    fo_scheduler_next SVN_REV s = (BUFFER, s') /\
    text_at BUFFER s' = Some a /\
    stdin s' = rest.
Proof.
  intros Hnul Hlfa Hlfb Hlen Hc He Hvb Hvs Hin.
  assert (Hne : stdin s <> []) by (rewrite Hin; now destruct a).
  assert (Hread : read_chunk (BUFSIZE - 1) (stdin s) = ((a ++ NUL :: b) ++ [LF], rest)).
  { rewrite Hin.
    replace (a ++ NUL :: b ++ LF :: rest) with ((a ++ NUL :: b) ++ LF :: rest)
      by (now rewrite <- app_assoc).
    apply read_chunk_line.
    - intros H. apply in_app_or in H as [H|[H|H]]; [now apply Hlfa | discriminate H | now apply Hlfb].
    - rewrite length_app. cbn [length]. lia. }
  rewrite fo_scheduler_next_eq, (next_pass_read SVN_REV s _ rest Hne Hread).
  replace ((a ++ NUL :: b) ++ [LF]) with (a ++ NUL :: (b ++ [LF]))
    by (now rewrite <- app_assoc).
  rewrite classify_nul_tail, (classify_data a Hc He Hvb Hvs).
  eexists. split; [reflexivity|].
  cbn [text_at buffer stdin set_valid after_fgets set_stdin set_buffer].
  rewrite <- app_assoc. cbn [app]. now rewrite cstr_app_nul.
Qed.

(** X12: when the input ends right after the seven letters VERBOSE, the
    pass reads the new level from index 8 of the buffer, behind the NUL that
    ends the line, where the bytes are those the buffer held before the call;
    the call then returns NULL at the end of file. *)
Theorem verbose_without_argument (s : state) :
  stdin s = lit "VERBOSE" ->
  exists s',
    fo_scheduler_next SVN_REV s = (NULL, s') /\
    verbose s' = atoi (skipn 8 (buffer s)).
Proof.
  intros Hin.
  assert (Hne : stdin s <> []) by now rewrite Hin.
  assert (Hread : read_chunk (BUFSIZE - 1) (stdin s) = (lit "VERBOSE", [])).
  { rewrite Hin. apply read_chunk_all.
    - apply existsb_eqb_false. reflexivity.
    - pose proof BUFSIZE_min. cbn [lit list_ascii_of_string length]. lia. }
  rewrite fo_scheduler_next_eq, (next_pass_read SVN_REV s _ _ Hne Hread).
  change (classify (lit "VERBOSE")) with Verbose. cbv beta iota zeta.
  rewrite fo_scheduler_next_eq, next_pass_eof by reflexivity.
  eexists. split; reflexivity.
Qed.

(** X13: CLOSE does not end the reading for good: the call after the one
    that answered NULL to a CLOSE line reads on and returns the data line
    that follows. *)
Theorem close_is_not_final (s : state) (c l rest : list ascii) :
  inbound_line c ->
  starts_with (lit "CLOSE") c = true ->
  inbound_line l ->
  starts_with (lit "CLOSE") l = false ->
  starts_with (lit "END") l = false ->
  starts_with (lit "VERBOSE") l = false ->
  starts_with (lit "VERSION") l = false ->
  stdin s = c ++ l ++ rest ->
  exists s1 s2,
    fo_scheduler_next SVN_REV s = (NULL, s1) /\
    fo_scheduler_next SVN_REV s1 = (BUFFER, s2) /\
    text_at BUFFER s2 = Some l /\
    stdin s2 = rest.
Proof.
  intros Hcl Hcp Hl Hc He Hvb Hvs Hin.
  rewrite fo_scheduler_next_eq, (next_pass_line SVN_REV s c (l ++ rest) Hcl Hin).
  rewrite (classify_close c Hcp). cbv zeta.
  eexists. eexists. split; [reflexivity|].
  rewrite fo_scheduler_next_eq.
  rewrite (next_pass_line SVN_REV _ l rest Hl) by reflexivity.
  rewrite (classify_data l Hc He Hvb Hvs).
  split; [reflexivity|].
  cbn [text_at buffer stdin set_valid after_fgets set_stdin set_buffer fflush_stdout].
  rewrite cstr_app_nul by apply Hl. split; reflexivity.
Qed.

End LineShapes.

Lemma Recurse_inj (a b : state) : Recurse a = Recurse b -> a = b.
Proof. now intros [= ->]. Qed.

Section Verbosity.

Variable SVN_REV : cmem.

(** ** The verbosity a call leaves *)

(** X14: where every VERBOSE line among the leading control lines reaches
    index 8, the verbosity after the call is set by the last of them, to what
    atoi reads from its ninth character on; without a VERBOSE line it is the
    verbosity from before the call. *)
Theorem next_verbose (s : state) :
  forallb verbose_has_argument (take_while is_control (lines (stdin s))) = true ->
  verbose (snd (fo_scheduler_next SVN_REV s)) =
    fold_left verbose_after (take_while is_control (lines (stdin s))) (verbose s).
Proof.
  revert s.
  apply (fo_scheduler_next_rec SVN_REV (fun s r =>
    forallb verbose_has_argument (take_while is_control (lines (stdin s))) = true ->
    verbose (snd r) =
      fold_left verbose_after (take_while is_control (lines (stdin s))) (verbose s))).
  - intros s0 p s' H _.
    destruct (next_pass_cases SVN_REV s0)
      as [[Hin Hp] | (l & r & Hne & Hread & Hlines & Hp)]; rewrite Hp in H.
    + injection H as <- <-. now rewrite Hin.
    + rewrite Hlines. cbn [take_while]. unfold is_control.
      destruct (classify l); try discriminate H; now injection H as <- <-.
  - intros s0 s1 H IH.
    destruct (next_pass_cases SVN_REV s0)
      as [[Hin Hp] | (l & r & Hne & Hread & Hlines & Hp)]; rewrite Hp in H;
      [discriminate H|].
    rewrite Hlines. cbn [take_while]. unfold is_control.
    destruct (classify l) eqn:Ec; try discriminate H;
      apply Recurse_inj in H; subst s1;
      cbn [forallb fold_left]; intros Hall; apply andb_prop in Hall as [Hl Hall];
      rewrite (IH Hall); unfold verbose_after at 3; rewrite Ec; try reflexivity.
    cbn [verbose stdin buffer set_valid set_verbose after_fgets set_stdin set_buffer
      fflush_stdout].
    unfold verbose_has_argument in Hl. rewrite Ec in Hl. apply Nat.leb_le in Hl.
    rewrite skipn_app.
    replace (8 - length l)%nat with 0%nat by lia.
    change (skipn 0 ?x) with x. now rewrite atoi_nul_tail.
Qed.

(** ** The reader and what it does not read *)

(** The result of a call and the variables it leaves depend on the
    variables and the unread input alone. *)
Lemma next_same_session (n : nat) : forall s t,
  (length (stdin s) < n)%nat ->
  same_session s t ->
  fst (fo_scheduler_next SVN_REV s) = fst (fo_scheduler_next SVN_REV t) /\
  same_session (snd (fo_scheduler_next SVN_REV s)) (snd (fo_scheduler_next SVN_REV t)).
Proof.
  induction n as [|n IH]; intros s t Hn Hst; [lia|].
  destruct Hst as (Hi & Hb & Hv & Hf & Hvb & Hin).
  rewrite (fo_scheduler_next_eq SVN_REV s), (fo_scheduler_next_eq SVN_REV t).
  destruct (next_pass_cases SVN_REV s)
    as [[Hs Hp] | (l & r & Hne & Hread & Hlines & Hp)].
  - rewrite Hp, next_pass_eof by congruence.
    split; [reflexivity|]. unfold same_session. cbn. repeat split; assumption.
  - assert (Hread' : read_chunk (BUFSIZE - 1) (stdin t) = (l, r)) by congruence.
    assert (Hne' : stdin t <> []) by congruence.
    assert (Hlen : (length r < n)%nat).
    { pose proof (read_chunk_shorter (BUFSIZE - 1)) as Hsh.
      destruct (stdin s) as [|c rest]; [congruence|].
      specialize (Hsh c rest). rewrite Hread in Hsh. cbn [snd] in Hsh.
      pose proof BUFSIZE_min. cbn [length] in Hn. lia. }
    rewrite Hp, (next_pass_read SVN_REV t l r Hne' Hread'). cbv zeta.
    destruct (classify l).
    + split; [reflexivity|]. unfold same_session. cbn -[skipn].
      rewrite Hb. repeat split; assumption.
    + apply IH; [exact Hlen|]. unfold same_session. cbn -[skipn].
      rewrite Hb. repeat split; assumption.
    + apply IH; [exact Hlen|]. unfold same_session. cbn -[skipn atoi].
      rewrite Hb. repeat split; assumption.
    + apply IH; [exact Hlen|]. unfold same_session. cbn -[skipn].
      rewrite Hb. repeat split; assumption.
    + split; [reflexivity|]. unfold same_session. cbn -[skipn].
      rewrite Hb. repeat split; assumption.
Qed.

(** X15: a heartbeat between two calls does not change what the reader
    does: after a delivery of SIGALRM to fo_heartbeat, fo_scheduler_next
    returns the same pointer and leaves the same counter, buffer, flags,
    verbosity and unread input as without it. *)
Theorem heartbeat_keeps_reader (secs : Z) (s : state) :
  let r := fo_scheduler_next SVN_REV s in
  let r' := fo_scheduler_next SVN_REV (fo_heartbeat secs s) in
  fst r' = fst r /\
  text_at (fst r') (snd r') = text_at (fst r) (snd r) /\
  same_session (snd r') (snd r).
Proof.
  intros r r'.
  destruct (next_same_session (S (length (stdin s))) (fo_heartbeat secs s) s)
    as [Hp Hs].
  - cbn. lia.
  - unfold same_session. repeat split.
  - fold r r' in Hp, Hs. split; [exact Hp|]. split; [|exact Hs].
    rewrite Hp. destruct (fst r); [reflexivity|]. cbn.
    destruct Hs as (_ & Hb & _). now rewrite Hb.
Qed.

End Verbosity.

Section Session.

Variable SVN_REV : cmem.
Variable ALARM_SECS : Z.

(** ** Sessions *)

Lemma strcmp_not_sentinel (arg : cmem) :
  cstr arg <> lit "--scheduler_start" ->
  (strcmp arg (lit "--scheduler_start") =? 0) = false.
Proof.
  intros H. apply Z.eqb_neq. intros E. apply H.
  now apply strcmp_zero_cstr in E.
Qed.

(** X16: when the last argument is anything but --scheduler_start,
    fo_scheduler_connect writes nothing, leaves the arguments, the handler
    and the alarm alone and clears found; fo_scheduler_disconnect then ends
    the process with status 0 without a BYE. *)
Theorem connect_standalone (argc : Z) (argv : list (option cmem)) (arg : cmem) (s : state) :
  1 <= argc ->
  nth_error argv (Z.to_nat (argc - 1)) = Some (Some arg) ->
  cstr arg <> lit "--scheduler_start" ->
  exists s' s'',
    fo_scheduler_connect SVN_REV ALARM_SECS argc argv s = Some (argc, argv, s') /\
    found s' = 0 /\
    stdout_sent s' = stdout_sent s /\
    stdout_buf s' = stdout_buf s /\
    sigalrm s' = sigalrm s /\
    alarm_in s' = alarm_in s /\
    stdin s' = stdin s /\
    fo_scheduler_disconnect s' = Exits 0 s'' /\
    stdout_sent s'' = stdout_all s.
Proof.
  intros Hargc Hnth Harg. unfold fo_scheduler_connect.
  assert (Hlt : (argc - 1 <? 0) = false) by (apply Z.ltb_ge; lia).
  rewrite Hlt, Hnth, (strcmp_not_sentinel arg Harg).
  eexists. eexists. split; [reflexivity|]. repeat split.
Qed.

(** X17: a session without work: connected with --scheduler_start as the
    last argument and disconnected at once, the process ends with status 0
    and the scheduler has received the line of SVN_REV, OK and BYE, in this
    order, after what was written before; in between, fo_heartbeat is
    the handler of SIGALRM and the alarm is set to ALARM_SECS. *)
Theorem session_without_work (argc : Z) (argv : list (option cmem)) (arg : cmem) (s : state) :
  1 <= argc ->
  nth_error argv (Z.to_nat (argc - 1)) = Some (Some arg) ->
  cstr arg = lit "--scheduler_start" ->
  exists argv' s' s'',
    fo_scheduler_connect SVN_REV ALARM_SECS argc argv s = Some (argc - 1, argv', s') /\
    sigalrm s' = HEARTBEAT /\
    alarm_in s' = (if ALARM_SECS =? 0 then None else Some ALARM_SECS) /\
    fo_scheduler_disconnect s' = Exits 0 s'' /\
    stdout_sent s'' =
      stdout_all s ++ (cstr SVN_REV ++ [LF]) ++ line "OK" ++ line "BYE" /\
    stdout_buf s'' = [].
Proof.
  intros Hargc Hnth Harg. unfold fo_scheduler_connect.
  assert (Hlt : (argc - 1 <? 0) = false) by (apply Z.ltb_ge; lia).
  rewrite Hlt, Hnth, (strcmp_cstr _ _ Harg).
  eexists. eexists. eexists. split; [reflexivity|].
  split; [reflexivity|]. split; [reflexivity|]. split; [reflexivity|].
  unfold stdout_all. cbn. rewrite ?app_nil_r, <- ?app_assoc. split; reflexivity.
Qed.

(** ** Progress and heartbeats *)

Lemma heart_all_stdout (incs : list Z) : forall s,
  stdout_sent (heart_all incs s) = stdout_sent s /\
  stdout_buf (heart_all incs s) = stdout_buf s.
Proof.
  induction incs as [|i incs IH]; intros s; [now split|].
  cbn [heart_all fold_left]. destruct (IH (fo_scheduler_heart i s)) as [H1 H2].
  unfold heart_all in H1, H2. now rewrite H1, H2.
Qed.

Lemma sum_nonneg (incs : list Z) :
  Forall (fun i => 0 <= i) incs -> 0 <= fold_right Z.add 0 incs.
Proof.
  induction 1 as [|i incs Hi _ IH]; cbn; lia.
Qed.

(** X18: after any number of calls of fo_scheduler_heart with counts that
    are not negative, the counter holds the sum of the counts on top of what
    it held, as long as that fits an int, and that is the number the next
    heartbeat reports. *)
Theorem heart_all_sum (incs : list Z) (s : state) :
  Forall (fun i => 0 <= i) incs ->
  0 <= items_processed s ->
  items_processed s + fold_right Z.add 0 incs <= INT_MAX ->
  let total := items_processed s + fold_right Z.add 0 incs in
  items_processed (heart_all incs s) = total /\
  stdout_sent (fo_heartbeat ALARM_SECS (heart_all incs s)) =
    stdout_all s ++ lit "HEART: " ++ fmt_d total ++ [LF].
Proof.
  intros Hall H0 Hmax total.
  assert (E : items_processed (heart_all incs s) = total).
  { subst total. revert s H0 Hmax.
    induction Hall as [|i incs Hi Hall IH]; intros s H0 Hmax.
    - cbn. lia.
    - cbn [heart_all fold_left fold_right] in *.
      pose proof (sum_nonneg incs Hall) as Hs.
      assert (Ei : items_processed (fo_scheduler_heart i s) = items_processed s + i).
      { apply to_int_in_range. unfold in_int, INT_MIN, INT_MAX in *. lia. }
      fold (heart_all incs (fo_scheduler_heart i s)).
      rewrite IH; rewrite Ei; lia. }
  split; [exact E|].
  destruct (heart_all_stdout incs s) as [H1 H2].
  unfold fo_heartbeat, stdout_all.
  cbn [stdout_sent stdout_buf alarm fflush_stdout fprintf_stdout].
  now rewrite E, H1, H2, <- !app_assoc.
Qed.

Lemma concat_repeat_snoc {A : Type} (x : list A) (n : nat) :
  concat (repeat x n) ++ x = concat (repeat x (S n)).
Proof.
  induction n as [|n IH]; cbn [repeat concat] in *.
  - now rewrite app_nil_r.
  - now rewrite <- app_assoc, IH.
Qed.

(** X19: heartbeats do not use up the counter: after k + 1 deliveries of
    SIGALRM with no progress in between, the scheduler has received k + 1
    equal HEART lines, the counter is what it was, and the alarm is set
    again. *)
Theorem heartbeats_repeat (k : nat) (s : state) :
  let s' := heartbeats ALARM_SECS (S k) s in
  let beat := lit "HEART: " ++ fmt_d (items_processed s) ++ [LF] in
  stdout_sent s' = stdout_all s ++ concat (repeat beat (S k)) /\
  stdout_buf s' = [] /\
  items_processed s' = items_processed s /\
  alarm_in s' = (if ALARM_SECS =? 0 then None else Some ALARM_SECS).
Proof.
  induction k as [|k IH].
  - unfold stdout_all. cbn. rewrite app_nil_r, <- !app_assoc. repeat split.
  - destruct IH as (Hs & Hb & Hi & _).
    change (heartbeats ALARM_SECS (S (S k)) s)
      with (fo_heartbeat ALARM_SECS (heartbeats ALARM_SECS (S k) s)).
    cbv zeta. unfold fo_heartbeat at 1 2 3 4.
    cbn [stdout_sent stdout_buf items_processed alarm_in alarm fflush_stdout fprintf_stdout].
    rewrite Hs, Hb, Hi. repeat split.
    rewrite app_nil_l, <- (concat_repeat_snoc _ (S k)).
    now rewrite <- !app_assoc.
Qed.

End Session.

(** * Instances of the further properties *)

Lemma next_buffer_bounds_witness :
  let r := fo_scheduler_next SVN_REV_fallback (initial (line "foo.txt")) in
  length (buffer (snd r)) = BUFSIZE /\
  match text_at (fst r) (snd r) with
  | Some text => (length text <= BUFSIZE - 1)%nat
  | None => fst r = NULL
  end.
Proof.
  apply (next_buffer_bounds SVN_REV_fallback (initial (line "foo.txt"))).
  reflexivity.
Defined.

Lemma end_prefix_witness :
  let s := initial (line "ENDGAME.txt" ++ line "x") in
  exists s1,
    next_pass SVN_REV_fallback s = Recurse s1 /\
    fo_scheduler_next SVN_REV_fallback s = fo_scheduler_next SVN_REV_fallback s1 /\
    stdout_sent s1 = stdout_all s ++ line "OK" /\
    stdout_buf s1 = [] /\
    valid s1 = valid s /\
    verbose s1 = verbose s /\
    stdin s1 = line "x".
Proof.
  apply (end_prefix_acknowledged SVN_REV_fallback
           (initial (line "ENDGAME.txt" ++ line "x")) (line "ENDGAME.txt") (line "x")).
  - apply inbound_lineb_true. reflexivity.
  - reflexivity.
  - reflexivity.
Defined.

Lemma version_prefix_witness :
  let s := initial (line "VERSION please" ++ line "x") in
  exists s1,
    next_pass SVN_REV_fallback s = Recurse s1 /\
    fo_scheduler_next SVN_REV_fallback s = fo_scheduler_next SVN_REV_fallback s1 /\
    stdout_sent s1 = stdout_all s /\
    stdout_buf s1 = cstr SVN_REV_fallback ++ [LF] /\
    valid s1 = 0 /\
    verbose s1 = verbose s /\
    stdin s1 = line "x".
Proof.
  apply (version_prefix_answered SVN_REV_fallback
           (initial (line "VERSION please" ++ line "x")) (line "VERSION please") (line "x")).
  - apply inbound_lineb_true. reflexivity.
  - reflexivity.
  - reflexivity.
Defined.

Lemma long_line_witness :
  let chunk := repeat "a"%char (BUFSIZE - 1) in
  let s := initial (chunk ++ line "tail") in
  exists s',
    fo_scheduler_next SVN_REV_fallback s = (BUFFER, s') /\
    text_at BUFFER s' = Some chunk /\
    stdin s' = line "tail".
Proof.
  apply (long_line_split SVN_REV_fallback
           (initial (repeat "a"%char (BUFSIZE - 1) ++ line "tail"))
           (repeat "a"%char (BUFSIZE - 1)) (line "tail")).
  - vm_compute. reflexivity.
  - apply existsb_eqb_false. vm_compute. reflexivity.
  - apply existsb_eqb_false. vm_compute. reflexivity.
  - reflexivity.
  - reflexivity.
  - reflexivity.
  - reflexivity.
  - reflexivity.
Defined.

Lemma last_line_witness :
  let s := initial (lit "foo.txt") in
  exists s',
    fo_scheduler_next SVN_REV_fallback s = (BUFFER, s') /\
    text_at BUFFER s' = Some (lit "foo.txt") /\
    stdin s' = [] /\
    fst (fo_scheduler_next SVN_REV_fallback s') = NULL.
Proof.
  apply (last_line_without_newline SVN_REV_fallback (initial (lit "foo.txt")) (lit "foo.txt")).
  - discriminate.
  - apply existsb_eqb_false. reflexivity.
  - apply existsb_eqb_false. reflexivity.
  - apply Nat.ltb_lt. reflexivity.
  - reflexivity.
  - reflexivity.
  - reflexivity.
  - reflexivity.
  - reflexivity.
Defined.

Lemma nul_cuts_text_witness :
  let s := initial (lit "foo" ++ NUL :: lit "bar" ++ LF :: line "x") in
  exists s',
    fo_scheduler_next SVN_REV_fallback s = (BUFFER, s') /\
    text_at BUFFER s' = Some (lit "foo") /\
    stdin s' = line "x".
Proof.
  apply (nul_cuts_text SVN_REV_fallback
           (initial (lit "foo" ++ NUL :: lit "bar" ++ LF :: line "x"))
           (lit "foo") (lit "bar") (line "x")).
  - apply existsb_eqb_false. reflexivity.
  - apply existsb_eqb_false. reflexivity.
  - apply existsb_eqb_false. reflexivity.
  - apply Nat.ltb_lt. reflexivity.
  - reflexivity.
  - reflexivity.
  - reflexivity.
  - reflexivity.
  - reflexivity.
Defined.

Lemma verbose_without_argument_witness :
  let s := snd (fo_scheduler_next SVN_REV_fallback
                  (initial (line "123456789" ++ lit "VERBOSE"))) in
  exists s',
    fo_scheduler_next SVN_REV_fallback s = (NULL, s') /\
    verbose s' = 9.
Proof.
  destruct (verbose_without_argument SVN_REV_fallback
              (snd (fo_scheduler_next SVN_REV_fallback
                      (initial (line "123456789" ++ lit "VERBOSE")))))
    as [s' [H1 H2]].
  - reflexivity.
  - exists s'. split; [exact H1|]. rewrite H2. reflexivity.
Defined.

Lemma close_is_not_final_witness :
  let s := initial (line "CLOSE" ++ line "late.txt" ++ []) in
  exists s1 s2,
    fo_scheduler_next SVN_REV_fallback s = (NULL, s1) /\
    fo_scheduler_next SVN_REV_fallback s1 = (BUFFER, s2) /\
    text_at BUFFER s2 = Some (line "late.txt") /\
    stdin s2 = [].
Proof.
  apply (close_is_not_final SVN_REV_fallback
           (initial (line "CLOSE" ++ line "late.txt" ++ []))
           (line "CLOSE") (line "late.txt") []).
  - apply inbound_lineb_true. reflexivity.
  - reflexivity.
  - apply inbound_lineb_true. reflexivity.
  - reflexivity.
  - reflexivity.
  - reflexivity.
  - reflexivity.
  - reflexivity.
Defined.

Lemma next_verbose_witness :
  let s := initial (line "VERBOSE 1" ++ line "END" ++ line "VERBOSE 3" ++ line "x") in
  verbose (snd (fo_scheduler_next SVN_REV_fallback s)) = 3.
Proof.
  intros s. rewrite (next_verbose SVN_REV_fallback s); reflexivity.
Defined.

Lemma connect_standalone_witness :
  let argv := [Some (lit "agent"); Some (lit "--scheduler_start"); Some (lit "-v"); None] in
  let s := initial [] in
  exists s' s'',
    fo_scheduler_connect SVN_REV_fallback 30 3 argv s = Some (3, argv, s') /\
    found s' = 0 /\
    stdout_sent s' = stdout_sent s /\
    stdout_buf s' = stdout_buf s /\
    sigalrm s' = sigalrm s /\
    alarm_in s' = alarm_in s /\
    stdin s' = stdin s /\
    fo_scheduler_disconnect s' = Exits 0 s'' /\
    stdout_sent s'' = stdout_all s.
Proof.
  apply (connect_standalone SVN_REV_fallback 30 3
           [Some (lit "agent"); Some (lit "--scheduler_start"); Some (lit "-v"); None]
           (lit "-v") (initial [])).
  - lia.
  - reflexivity.
  - discriminate.
Defined.

Lemma session_without_work_witness :
  let argv := [Some (lit "agent"); Some (lit "--scheduler_start"); None] in
  exists argv' s' s'',
    fo_scheduler_connect SVN_REV_fallback 30 2 argv (initial []) = Some (2 - 1, argv', s') /\
    sigalrm s' = HEARTBEAT /\
    alarm_in s' = (if 30 =? 0 then None else Some 30) /\
    fo_scheduler_disconnect s' = Exits 0 s'' /\
    stdout_sent s'' =
      stdout_all (initial []) ++
      (cstr SVN_REV_fallback ++ [LF]) ++ line "OK" ++ line "BYE" /\
    stdout_buf s'' = [].
Proof.
  apply (session_without_work SVN_REV_fallback 30 2
           [Some (lit "agent"); Some (lit "--scheduler_start"); None]
           (lit "--scheduler_start") (initial [])).
  - lia.
  - reflexivity.
  - reflexivity.
Defined.

Lemma heart_all_sum_witness :
  items_processed (heart_all [3; 4; 0; 5] (initial [])) = 12 /\
  stdout_sent (fo_heartbeat 30 (heart_all [3; 4; 0; 5] (initial []))) = line "HEART: 12".
Proof.
  apply (heart_all_sum 30 [3; 4; 0; 5] (initial [])).
  - repeat constructor; lia.
  - cbn. lia.
  - unfold INT_MAX. cbn. lia.
Defined.
